(** * servicefs: the file-operation layer of the service endpoints

    A shallow embedding of [drivers/staging/servicefs/file.c] and of the
    data model of [drivers/staging/servicefs/servicefs_private.h].

    The file operations of a service inode are modelled as functions that
    pass the state of the service (the object behind [inode->i_private])
    explicitly.  The handlers that [file.c] calls but does not define are
    the methods of three interfaces ([LifecycleApi], [ClientApi],
    [ServiceApi]); results about [file.c] hold for every implementation of
    them.  Module [SpecModel] gives the behaviour the design document
    ascribes to the handlers whose effect a property is about.

    The 32-bit entry points compiled under [CONFIG_COMPAT] are modelled
    after the native ones, over the user memory of a 32-bit caller. *)

From Stdlib Require Import ZArith List Finite Bool Lia.
Import ListNotations.
Local Open Scope Z_scope.

(** ** Machine integers *)

(** Conversion to a C [int]: reduction modulo 2^32 into the signed range. *)
Definition to_int (z : Z) : Z := (z + 2 ^ 31) mod 2 ^ 32 - 2 ^ 31.

(** Conversion to a C [unsigned int]: reduction modulo 2^32. *)
Definition to_uint (z : Z) : Z := z mod 2 ^ 32.

Definition INT_MIN : Z := - 2 ^ 31.
Definition INT_MAX : Z := 2 ^ 31 - 1.

Definition int_range (z : Z) : Prop := INT_MIN <= z <= INT_MAX.

(** A C truth value: non-zero. *)
Definition truthy (z : Z) : bool := negb (z =? 0).

(** ** Kernel constants used by file.c *)

(** include/uapi/asm-generic/errno-base.h *)
Definition ENOMEM : Z := 12.
Definition EFAULT : Z := 14.
Definition EINVAL : Z := 22.
Definition ENOTTY : Z := 25.

(** include/uapi/asm-generic/poll.h *)
Definition POLLIN : Z := 1.
Definition POLLRDNORM : Z := 64.

(** include/uapi/asm-generic/fcntl.h *)
Definition O_RDONLY : Z := 0.
Definition O_NONBLOCK : Z := 2048.
Definition O_CLOEXEC : Z := 524288.

(** include/linux/sched.h *)
Definition TASK_INTERRUPTIBLE : Z := 1.
Definition TASK_UNINTERRUPTIBLE : Z := 2.
(** [LONG_MAX], for a 64-bit [long]. *)
Definition MAX_SCHEDULE_TIMEOUT : Z := 2 ^ 63 - 1.

(** include/linux/fs.h, include/uapi/linux/uio.h *)
Definition READ : Z := 0.
Definition WRITE : Z := 1.
Definition UIO_FASTIOV : Z := 8.
Definition UIO_MAXIOV : Z := 1024.

(** include/uapi/asm-generic/ioctl.h: the fields of an ioctl number. *)
Definition _IOC_NR (cmd : Z) : Z := Z.land cmd 255.
Definition _IOC_TYPE (cmd : Z) : Z := Z.land (Z.shiftr cmd 8) 255.
Definition _IOC (dir type nr size : Z) : Z :=
  Z.lor (Z.lor (Z.shiftl dir 30) (Z.shiftl type 8))
        (Z.lor nr (Z.shiftl size 16)).

(** The character ['x'], the type field of every servicefs ioctl. *)
Definition servicefs_ioc_type : Z := 120.

(** ** servicefs_private.h: flags *)

Definition SERVICE_FLAGS_CANCELED : Z := Z.shiftl 1 0.
Definition SERVICE_FLAGS_OPEN_NOTIFY : Z := Z.shiftl 1 1.
Definition SERVICE_FLAGS_CLOSE_NOTIFY : Z := Z.shiftl 1 2.
Definition SERVICE_FLAGS_DEFAULT : Z :=
  Z.lor SERVICE_FLAGS_OPEN_NOTIFY SERVICE_FLAGS_CLOSE_NOTIFY.

Definition CHANNEL_FLAGS_CANCELED : Z := Z.shiftl 1 0.
Definition CHANNEL_FLAGS_THREAD_POOL : Z := Z.shiftl 1 1.

Definition MESSAGE_NO_ID : Z := -1.

(** ** servicefs_private.h: data model *)

(** A user-space address; [0] is [NULL]. *)
Definition uptr := Z.

(** One element of an [iov] array: base address and length. *)
Record iov := mk_iov { iov_base : uptr; iov_len : Z }.

(** A [struct channel *] is represented by the id of the channel, which is
    unique among the channels linked on one service. *)
Definition channel_ptr := Z.

Record channel := mk_channel {
  c_id : Z;
  c_events : Z;
  c_flags : Z;
  c_context : uptr
}.

Record message := mk_message {
  m_id : Z;
  m_priority : Z;
  m_pid : Z;
  m_tid : Z;
  m_euid : Z;
  m_egid : Z;
  m_channel : option channel_ptr;
  m_op : Z;
  m_sbuf : list iov;
  m_rbuf : list iov;
  m_fds : list Z;
  m_fdcnt : Z;
  m_completed : bool;
  m_interrupted : bool;
  m_status : Z
}.

Record impulse := mk_impulse {
  i_pid : Z;
  i_tid : Z;
  i_euid : Z;
  i_egid : Z;
  i_channel : option channel_ptr;
  i_op : Z;
  i_data : list Z;
  i_len : Z
}.

(** [struct service].  The two id allocators are determined by the ids in
    use on the lists; the mutex and the wait queues carry no data. *)
Record service := mk_service {
  s_count : Z;
  s_channel_start : Z;
  s_message_start : Z;
  s_channels : list channel;
  s_impulses : list impulse;
  s_messages : list message;
  s_active : list message;
  s_flags : Z;
  s_context : uptr;
  s_filp : option Z
}.

Definition __is_service_canceled (svc : service) : bool :=
  truthy (Z.land (s_flags svc) SERVICE_FLAGS_CANCELED).

Definition __is_channel_canceled (c : channel) : bool :=
  truthy (Z.land (c_flags c) CHANNEL_FLAGS_CANCELED).

Definition __is_message_completed (m : message) : bool := m_completed m.

Definition __is_message_interrupted (m : message) : bool := m_interrupted m.

Definition __is_message_active (m : message) : bool :=
  negb (m_id m =? MESSAGE_NO_ID).

Definition __is_message_detached (m : message) : bool :=
  match m_channel m with None => true | Some _ => false end.

(** Field updates of [struct service]. *)
Definition set_s_count (svc : service) (n : Z) : service :=
  mk_service n (s_channel_start svc) (s_message_start svc) (s_channels svc)
    (s_impulses svc) (s_messages svc) (s_active svc) (s_flags svc)
    (s_context svc) (s_filp svc).

Definition set_s_filp (svc : service) (f : option Z) : service :=
  mk_service (s_count svc) (s_channel_start svc) (s_message_start svc)
    (s_channels svc) (s_impulses svc) (s_messages svc) (s_active svc)
    (s_flags svc) (s_context svc) f.

Definition set_s_channels (svc : service) (l : list channel) : service :=
  mk_service (s_count svc) (s_channel_start svc) (s_message_start svc) l
    (s_impulses svc) (s_messages svc) (s_active svc) (s_flags svc)
    (s_context svc) (s_filp svc).

Definition set_s_impulses (svc : service) (l : list impulse) : service :=
  mk_service (s_count svc) (s_channel_start svc) (s_message_start svc)
    (s_channels svc) l (s_messages svc) (s_active svc) (s_flags svc)
    (s_context svc) (s_filp svc).

Definition set_s_messages (svc : service) (l : list message) : service :=
  mk_service (s_count svc) (s_channel_start svc) (s_message_start svc)
    (s_channels svc) (s_impulses svc) l (s_active svc) (s_flags svc)
    (s_context svc) (s_filp svc).

Definition set_s_active (svc : service) (l : list message) : service :=
  mk_service (s_count svc) (s_channel_start svc) (s_message_start svc)
    (s_channels svc) (s_impulses svc) (s_messages svc) l (s_flags svc)
    (s_context svc) (s_filp svc).

(** include/linux/list.h: [list_empty]. *)
Definition list_empty {A : Type} (l : list A) : bool :=
  match l with
  | [] => true
  | _ :: _ => false
  end.

(** [atomic_add_return(d, &svc->s_count)]: the new count and the updated
    service. *)
Definition atomic_add_return (d : Z) (svc : service) : Z * service :=
  let count := to_int (s_count svc + d) in (count, set_s_count svc count).

(** ** Files and inodes *)



(** The address of one of the three tables, as stored in [filp->f_op]. *)
Inductive fops :=
| initial_file_operations
| service_file_operations
| channel_file_operations.


Definition fops_eqb (p q : fops) : bool :=
  match p, q with
  | initial_file_operations, initial_file_operations => true
  | service_file_operations, service_file_operations => true
  | channel_file_operations, channel_file_operations => true
  | _, _ => false
  end.

(** The object behind [filp->private_data]: nothing, the service of the
    inode, or one of its channels. *)
Inductive private :=
| priv_null
| priv_service
| priv_channel (c : channel_ptr).

(** [struct file]; [f_addr] is the address that identifies the object. *)
Record file := mk_file {
  f_addr : Z;
  private_data : private;
  f_op : fops;
  f_flags : Z
}.

(** [struct inode]: [i_private] is the service, or [NULL]. *)
Record inode := mk_inode { i_private : option service }.

(** A function that may stop in [BUG_ON]. *)
Inductive kresult (A : Type) :=
| KReturn (a : A)
| KBug.
Arguments KReturn {A} a.
Arguments KBug {A}.

(** ** Request structures of servicefs_ioctl.h

    Only the members that file.c reads are known. *)

Record servicefs_set_channel_context_struct := mk_set_channel_context {
  scc_cid : Z; scc_ctx : uptr }.

Record servicefs_msg_rwvec_struct := mk_msg_rwvec {
  rwv_msgid : Z; rwv_vec : uptr; rwv_len : Z }.

Record servicefs_msg_seek_struct := mk_msg_seek {
  sk_msgid : Z; sk_offset : Z; sk_whence : Z }.

Record servicefs_msg_busv_struct := mk_msg_busv {
  bus_dst_msgid : Z; bus_dst_offset : Z;
  bus_src_msgid : Z; bus_src_offset : Z; bus_len : Z }.

Record servicefs_msg_reply_struct := mk_msg_reply {
  rep_msgid : Z; rep_retcode : Z }.

Record servicefs_mod_channel_events_struct := mk_mod_channel_events {
  mce_cid : Z; mce_clr : Z; mce_set : Z }.

Record servicefs_msg_push_fd_struct := mk_msg_push_fd {
  pfd_msgid : Z; pfd_pushfd : Z }.

Record servicefs_msg_get_fd_struct := mk_msg_get_fd {
  gfd_msgid : Z; gfd_index : Z }.

Record servicefs_push_channel_struct := mk_push_channel {
  pc_svcfd : Z; pc_msgid : Z; pc_flags : Z; pc_cid : uptr; pc_ctx : uptr }.

Record servicefs_check_channel_struct := mk_check_channel {
  cc_svcfd : Z; cc_msgid : Z; cc_index : Z; cc_cid : uptr; cc_ctx : uptr }.

Record servicefs_msg_sendv_struct := mk_msg_sendv {
  sv_op : Z;
  sv_svec : uptr; sv_scnt : Z;
  sv_rvec : uptr; sv_rcnt : Z;
  sv_fds : uptr; sv_fdcnt : Z }.

Record servicefs_msg_send_impulse_struct := mk_msg_send_impulse {
  si_op : Z; si_buf : uptr; si_len : Z }.

(** ** Constants of the headers that are not part of the sources *)

(** servicefs_ioctl.h: the ioctl numbers. *)
Class IoctlNumbers := {
  SERVICEFS_IOCTL_MAX_NR : Z;
  SERVICEFS_SET_SERVICE_CONTEXT : Z;
  SERVICEFS_SET_CHANNEL_CONTEXT : Z;
  SERVICEFS_MSG_RECV : Z;
  SERVICEFS_MSG_READV : Z;
  SERVICEFS_MSG_WRITEV : Z;
  SERVICEFS_MSG_SEEK : Z;
  SERVICEFS_MSG_BUSV : Z;
  SERVICEFS_MSG_REPLY : Z;
  SERVICEFS_MSG_REPLY_FD : Z;
  SERVICEFS_MOD_CHANNEL_EVENTS : Z;
  SERVICEFS_MSG_PUSH_FD : Z;
  SERVICEFS_MSG_GET_FD : Z;
  SERVICEFS_PUSH_CHANNEL : Z;
  SERVICEFS_CLOSE_CHANNEL : Z;
  SERVICEFS_CHECK_CHANNEL : Z;
  SERVICEFS_CANCEL_SERVICE : Z;
  SERVICEFS_MSG_SENDV : Z;
  SERVICEFS_MSG_SEND_IMPULSE : Z
}.

(** include/linux/servicefs.h: the operation codes that file.c itself
    puts into messages. *)
Class OpCodes := {
  SERVICEFS_OP_UNIX_OPEN : Z;
  SERVICEFS_OP_UNIX_CLOSE : Z;
  SERVICEFS_OP_UNIX_READ : Z;
  SERVICEFS_OP_UNIX_WRITE : Z
}.

(** The commands that [service_ioctl] has a case for, in the order of its
    switch. *)
Definition service_commands `{IoctlNumbers} : list Z :=
  [ SERVICEFS_SET_SERVICE_CONTEXT; SERVICEFS_SET_CHANNEL_CONTEXT;
    SERVICEFS_MSG_RECV; SERVICEFS_MSG_READV; SERVICEFS_MSG_WRITEV;
    SERVICEFS_MSG_SEEK; SERVICEFS_MSG_BUSV; SERVICEFS_MSG_REPLY;
    SERVICEFS_MSG_REPLY_FD; SERVICEFS_MOD_CHANNEL_EVENTS;
    SERVICEFS_MSG_PUSH_FD; SERVICEFS_MSG_GET_FD; SERVICEFS_PUSH_CHANNEL;
    SERVICEFS_CLOSE_CHANNEL; SERVICEFS_CHECK_CHANNEL;
    SERVICEFS_CANCEL_SERVICE ].

(** The commands that [channel_ioctl] has a case for. *)
Definition channel_commands `{IoctlNumbers} : list Z :=
  [ SERVICEFS_MSG_SENDV; SERVICEFS_MSG_SEND_IMPULSE ].

(** A command passes the two range checks at the head of both
    dispatchers. *)
Definition servicefs_command `{IoctlNumbers} (cmd : Z) : Prop :=
  _IOC_TYPE cmd = servicefs_ioc_type /\ _IOC_NR cmd <= SERVICEFS_IOCTL_MAX_NR.

(** ** The environment of the dispatchers *)

(** User memory and kernel services as file.c uses them.  Each
    [copy_*] member is [copy_from_user] at one structure type: the
    structure at the address, or [None] when the copy faults.
    [rw_copy_check_uvector] yields its [ssize_t] result and the checked
    vector; [kmalloc] tells whether an allocation of the size succeeds;
    [alloc_file] yields an error code or the address of the new file. *)
Class Environment := {
  copy_set_channel_context : uptr -> option servicefs_set_channel_context_struct;
  copy_msg_rwvec : uptr -> option servicefs_msg_rwvec_struct;
  copy_msg_seek : uptr -> option servicefs_msg_seek_struct;
  copy_msg_busv : uptr -> option servicefs_msg_busv_struct;
  copy_msg_reply : uptr -> option servicefs_msg_reply_struct;
  copy_mod_channel_events : uptr -> option servicefs_mod_channel_events_struct;
  copy_msg_push_fd : uptr -> option servicefs_msg_push_fd_struct;
  copy_msg_get_fd : uptr -> option servicefs_msg_get_fd_struct;
  copy_push_channel : uptr -> option servicefs_push_channel_struct;
  copy_check_channel : uptr -> option servicefs_check_channel_struct;
  copy_msg_sendv : uptr -> option servicefs_msg_sendv_struct;
  copy_msg_send_impulse : uptr -> option servicefs_msg_send_impulse_struct;
  copy_ints : uptr -> Z -> option (list Z);
  rw_copy_check_uvector : Z -> uptr -> Z -> Z * list iov;
  kmalloc : Z -> bool;
  alloc_file : Z + Z
}.

(** ** The handlers that file.c calls and does not define

    Every handler receives the state of the service and returns its result
    together with the new state.  The result stands for a value of the
    handler's C return type in servicefs_private.h: an [int], except for
    [servicefs_msg_readv], [servicefs_msg_writev], [servicefs_msg_busv]
    and [servicefs_msg_sendv], which return an [ssize_t] that the
    dispatchers store in their [int ret]. *)

(** Service API handlers, called by [service_ioctl]. *)
Class ServiceApi := {
  servicefs_push_channel :
    Z -> Z -> Z -> uptr -> uptr -> bool -> service -> Z * service;
  servicefs_close_channel : Z -> service -> Z * service;
  servicefs_check_channel :
    Z -> Z -> Z -> uptr -> uptr -> bool -> service -> Z * service;
  servicefs_set_service_context : uptr -> service -> Z * service;
  servicefs_set_channel_context : Z -> uptr -> service -> Z * service;
  servicefs_msg_recv : uptr -> Z -> bool -> service -> Z * service;
  servicefs_msg_readv : Z -> list iov -> Z -> service -> Z * service;
  servicefs_msg_writev : Z -> list iov -> Z -> service -> Z * service;
  servicefs_msg_seek : Z -> Z -> Z -> service -> Z * service;
  servicefs_msg_busv : Z -> Z -> Z -> Z -> Z -> service -> Z * service;
  servicefs_msg_reply : Z -> Z -> service -> Z * service;
  servicefs_msg_reply_fd : Z -> Z -> service -> Z * service;
  servicefs_mod_channel_events : Z -> Z -> Z -> service -> Z * service;
  servicefs_msg_push_fd : Z -> Z -> service -> Z * service;
  servicefs_msg_get_fd : Z -> Z -> service -> Z * service
}.

(** Client API handlers, called by [channel_ioctl] and the client file
    operations.  The arguments of [servicefs_msg_sendv] are the channel,
    the operation code, the send vector and its count, the receive vector
    and its count, the handle list and its count, and the task state of
    the sender's wait; a [NULL] array is [None]. *)
Class ClientApi := {
  servicefs_msg_sendv :
    channel_ptr -> Z -> option (list iov) -> Z -> option (list iov) -> Z ->
    option (list Z) -> Z -> Z -> service -> Z * service;
  servicefs_msg_send_impulse :
    channel_ptr -> Z -> uptr -> Z -> service -> Z * service
}.

(** Creation and removal of channels, cancellation of the service.
    [get_new_channel] yields the new channel, or [None] for [NULL]. *)
Class LifecycleApi := {
  get_new_channel : service -> option channel_ptr * service;
  remove_channel : channel_ptr -> service -> service;
  cancel_service : service -> Z * service
}.

(** servicefs_private.h: the two inline wrappers of [servicefs_msg_sendv]. *)
Definition servicefs_msg_sendv_interruptible `{ClientApi}
    (c : channel_ptr) (op : Z) (svec : option (list iov)) (scnt : Z)
    (rvec : option (list iov)) (rcnt : Z) (fds : option (list Z))
    (fdcnt : Z) (svc : service) : Z * service :=
  servicefs_msg_sendv c op svec scnt rvec rcnt fds fdcnt
    TASK_INTERRUPTIBLE svc.

Definition servicefs_msg_sendv_uninterruptible `{ClientApi}
    (c : channel_ptr) (op : Z) (svec : option (list iov)) (scnt : Z)
    (rvec : option (list iov)) (rcnt : Z) (fds : option (list Z))
    (fdcnt : Z) (svc : service) : Z * service :=
  servicefs_msg_sendv c op svec scnt rvec rcnt fds fdcnt
    TASK_UNINTERRUPTIBLE svc.

(** ** Control flow of the dispatchers

    A dispatcher case either jumps to the [error:] label with a value for
    [ret] ([inl]) or completes with a value ([inr]). *)
Definition step (A : Type) : Type := (Z + A)%type.

Definition step_bind {A B : Type} (e : step A) (k : A -> step B) : step B :=
  match e with
  | inl ret => inl ret
  | inr a => k a
  end.

Notation "x <- e ;; k" := (step_bind e (fun x => k))
  (at level 61, e at next level, right associativity).

(** [if (copy_from_user(...)) { ret = -EFAULT; goto error; }] *)
Definition or_fault {A : Type} (o : option A) : step A :=
  match o with
  | Some a => inr a
  | None => inl (- EFAULT)
  end.

(** [ret = rw_copy_check_uvector(...); if (ret < 0) goto error;] with the
    [ssize_t] result stored in the [int ret]. *)
Definition checked_uvector `{Environment} (type : Z) (uvec : uptr) (n : Z)
    : step (list iov) :=
  let '(r, vec) := rw_copy_check_uvector type uvec n in
  if to_int r <? 0 then inl (to_int r) else inr vec.

(** The result of a handler stored in the [int ret]. *)
Definition ret_int (p : Z * service) : Z * service := (to_int (fst p), snd p).

(** The [error:] label: [ret] is returned; a case that jumped there before
    calling a handler leaves the service as it was. *)
Definition finish (svc : service) (r : step (Z * service)) : Z * service :=
  match r with
  | inl ret => (ret, svc)
  | inr p => p
  end.

(** ** file.c *)

Section FileOperations.

Context {numbers : IoctlNumbers} {ops : OpCodes} {env : Environment}.
Context {service_api : ServiceApi} {client_api : ClientApi}
        {lifecycle_api : LifecycleApi}.

(** [initial_open]: the open file operation of a service inode.  The
    result is the return value, the inode with the updated service, and
    the file object. *)
Definition initial_open (ino : inode) (filp : file) : Z * inode * file :=
  match i_private ino with
  | None => (- EINVAL, ino, filp)
  | Some svc =>
      let '(count, svc) := atomic_add_return 1 svc in
      if count =? 1 then
        let filp :=
          mk_file (f_addr filp) priv_service service_file_operations
            (f_flags filp) in
        let svc := set_s_filp svc (Some (f_addr filp)) in
        (0, mk_inode (Some svc), filp)
      else
        match get_new_channel svc with
        | (None, svc) => (- EINVAL, mk_inode (Some svc), filp)
        | (Some c, svc) =>
            let filp :=
              mk_file (f_addr filp) (priv_channel c) channel_file_operations
                (f_flags filp) in
            if truthy (Z.land (s_flags svc) SERVICE_FLAGS_OPEN_NOTIFY) then
              let '(r, svc) :=
                servicefs_msg_sendv_uninterruptible c SERVICEFS_OP_UNIX_OPEN
                  None 0 None 0 None 0 svc in
              (to_int r, mk_inode (Some svc), filp)
            else (0, mk_inode (Some svc), filp)
        end
  end.

(** [create_channel_open]: open called by the service-side create channel
    API. *)
Definition create_channel_open (ino : inode) (filp : file)
    : kresult (Z * inode * file) :=
  match i_private ino with
  | None => KReturn (- EINVAL, ino, filp)
  | Some svc =>
      let '(count, svc) := atomic_add_return 1 svc in
      if count <? 1 then KBug
      else
        match get_new_channel svc with
        | (None, svc) => KReturn (- EINVAL, mk_inode (Some svc), filp)
        | (Some c, svc) =>
            let filp :=
              mk_file (f_addr filp) (priv_channel c) initial_file_operations
                (f_flags filp) in
            KReturn (0, mk_inode (Some svc), filp)
        end
  end.

Definition servicefs_complete_channel_setup (filp : file) : kresult file :=
  if negb (fops_eqb (f_op filp) initial_file_operations) then KBug
  else
    KReturn (mk_file (f_addr filp) (private_data filp)
               channel_file_operations (f_flags filp)).

Definition initial_release (ino : inode) (filp : file) : Z * inode :=
  match i_private ino with
  | None => (- EINVAL, ino)
  | Some svc =>
      let '(_, svc) := atomic_add_return (-1) svc in
      (0, mk_inode (Some svc))
  end.

(** [service_ioctl]: dispatch of the service ioctl APIs.  [filp] is the
    file of the service and [svc] the service behind its
    [private_data]. *)
Definition service_ioctl (filp : file) (cmd arg : Z) (svc : service)
    : Z * service :=
  let ubuf : uptr := arg in
  if negb (_IOC_TYPE cmd =? servicefs_ioc_type) then (- ENOTTY, svc)
  else if _IOC_NR cmd >? SERVICEFS_IOCTL_MAX_NR then (- ENOTTY, svc)
  else finish svc (
    if cmd =? SERVICEFS_SET_SERVICE_CONTEXT then
      inr (servicefs_set_service_context ubuf svc)
    else if cmd =? SERVICEFS_SET_CHANNEL_CONTEXT then
      params <- or_fault (copy_set_channel_context ubuf) ;;
      inr (servicefs_set_channel_context (scc_cid params) (scc_ctx params)
             svc)
    else if cmd =? SERVICEFS_MSG_RECV then
      let timeout :=
        if truthy (Z.land (f_flags filp) O_NONBLOCK) then 0
        else MAX_SCHEDULE_TIMEOUT in
      inr (servicefs_msg_recv ubuf timeout false svc)
    else if cmd =? SERVICEFS_MSG_READV then
      params <- or_fault (copy_msg_rwvec ubuf) ;;
      vec <- checked_uvector WRITE (rwv_vec params) (rwv_len params) ;;
      inr (ret_int (servicefs_msg_readv (rwv_msgid params) vec
                      (rwv_len params) svc))
    else if cmd =? SERVICEFS_MSG_WRITEV then
      params <- or_fault (copy_msg_rwvec ubuf) ;;
      vec <- checked_uvector READ (rwv_vec params) (rwv_len params) ;;
      inr (ret_int (servicefs_msg_writev (rwv_msgid params) vec
                      (rwv_len params) svc))
    else if cmd =? SERVICEFS_MSG_SEEK then
      params <- or_fault (copy_msg_seek ubuf) ;;
      inr (servicefs_msg_seek (sk_msgid params) (sk_offset params)
             (sk_whence params) svc)
    else if cmd =? SERVICEFS_MSG_BUSV then
      params <- or_fault (copy_msg_busv ubuf) ;;
      inr (ret_int (servicefs_msg_busv (bus_dst_msgid params)
                      (bus_dst_offset params) (bus_src_msgid params)
                      (bus_src_offset params) (bus_len params) svc))
    else if cmd =? SERVICEFS_MSG_REPLY then
      params <- or_fault (copy_msg_reply ubuf) ;;
      inr (servicefs_msg_reply (rep_msgid params) (rep_retcode params) svc)
    else if cmd =? SERVICEFS_MSG_REPLY_FD then
      params <- or_fault (copy_msg_reply ubuf) ;;
      inr (servicefs_msg_reply_fd (rep_msgid params)
             (to_uint (rep_retcode params)) svc)
    else if cmd =? SERVICEFS_MOD_CHANNEL_EVENTS then
      params <- or_fault (copy_mod_channel_events ubuf) ;;
      inr (servicefs_mod_channel_events (mce_cid params) (mce_clr params)
             (mce_set params) svc)
    else if cmd =? SERVICEFS_MSG_PUSH_FD then
      params <- or_fault (copy_msg_push_fd ubuf) ;;
      inr (servicefs_msg_push_fd (pfd_msgid params) (pfd_pushfd params) svc)
    else if cmd =? SERVICEFS_MSG_GET_FD then
      params <- or_fault (copy_msg_get_fd ubuf) ;;
      inr (servicefs_msg_get_fd (gfd_msgid params) (gfd_index params) svc)
    else if cmd =? SERVICEFS_PUSH_CHANNEL then
      params <- or_fault (copy_push_channel ubuf) ;;
      inr (servicefs_push_channel (pc_svcfd params) (pc_msgid params)
             (pc_flags params) (pc_cid params) (pc_ctx params) false svc)
    else if cmd =? SERVICEFS_CLOSE_CHANNEL then
      inr (servicefs_close_channel (to_int arg) svc)
    else if cmd =? SERVICEFS_CHECK_CHANNEL then
      params <- or_fault (copy_check_channel ubuf) ;;
      inr (servicefs_check_channel (cc_svcfd params) (cc_msgid params)
             (cc_index params) (cc_cid params) (cc_ctx params) false svc)
    else if cmd =? SERVICEFS_CANCEL_SERVICE then
      inr (cancel_service svc)
    else
      inr (- ENOTTY, svc)).

(** [servicefs_create_channel]: the new file of a channel that the service
    creates for itself, or an error pointer. *)
Definition servicefs_create_channel (ino : inode) (svc_file : file)
    (flags : Z) : kresult ((Z + file) * inode) :=
  match alloc_file with
  | inl err => KReturn (inl err, ino)
  | inr addr =>
      let file :=
        mk_file addr priv_null initial_file_operations
          (Z.lor O_RDONLY (Z.land flags (Z.lor O_NONBLOCK O_CLOEXEC))) in
      match create_channel_open ino file with
      | KBug => KBug
      | KReturn (ret, ino, file) =>
          if ret <? 0 then KReturn (inl ret, ino)
          else KReturn (inr file, ino)
      end
  end.

Definition servicefs_get_channel_from_file (filp : file) : private :=
  if negb (fops_eqb (f_op filp) channel_file_operations) then priv_null
  else private_data filp.

Definition servicefs_get_service_from_file (filp : file) : private :=
  if negb (fops_eqb (f_op filp) service_file_operations) then priv_null
  else private_data filp.

(** [service_poll]: the poll file operation of a service; [svc] is the
    service behind [filp->private_data]. *)
Definition service_poll (svc : service) : Z :=
  let mask := 0 in
  let mask :=
    if negb (list_empty (s_impulses svc)) || negb (list_empty (s_messages svc))
    then Z.lor POLLIN POLLRDNORM
    else mask in
  mask.

Definition service_release (ino : inode) (filp : file) : Z * inode :=
  match i_private ino with
  | None => (- EINVAL, ino)
  | Some svc =>
      let '(_, svc) := atomic_add_return (-1) svc in
      let '(_, svc) := cancel_service svc in
      (0, mk_inode (Some svc))
  end.

(** The three array arguments of a send-transaction request, read after
    the request passed validation. *)
Definition sendv_svec (params : servicefs_msg_sendv_struct)
    : step (option (list iov)) :=
  if truthy (sv_svec params) then
    vec <- checked_uvector READ (sv_svec params) (sv_scnt params) ;;
    inr (Some vec)
  else inr None.

Definition sendv_rvec (params : servicefs_msg_sendv_struct)
    : step (option (list iov)) :=
  if truthy (sv_rvec params) then
    vec <- checked_uvector WRITE (sv_rvec params) (sv_rcnt params) ;;
    inr (Some vec)
  else inr None.

Definition sendv_fds (params : servicefs_msg_sendv_struct)
    : step (option (list Z)) :=
  if truthy (sv_fds params) then
    if sv_fdcnt params >? UIO_MAXIOV then inl (- EINVAL)
    else if (sv_fdcnt params >? UIO_FASTIOV)
            && negb (kmalloc (4 * sv_fdcnt params)) then inl (- ENOMEM)
    else
      fds <- or_fault (copy_ints (sv_fds params) (sv_fdcnt params)) ;;
      inr (Some fds)
  else inr None.

(** [channel_ioctl]: dispatch of the channel (client) ioctl APIs.  [c] is
    the channel behind [filp->private_data] and [svc] its service. *)
Definition channel_ioctl (c : channel_ptr) (cmd arg : Z) (svc : service)
    : Z * service :=
  let ubuf : uptr := arg in
  if negb (_IOC_TYPE cmd =? servicefs_ioc_type) then (- ENOTTY, svc)
  else if _IOC_NR cmd >? SERVICEFS_IOCTL_MAX_NR then (- ENOTTY, svc)
  else finish svc (
    if cmd =? SERVICEFS_MSG_SENDV then
      params <- or_fault (copy_msg_sendv ubuf) ;;
      if (sv_op params =? SERVICEFS_OP_UNIX_OPEN)
         || (sv_op params =? SERVICEFS_OP_UNIX_CLOSE)
         || (negb (truthy (sv_svec params)) && truthy (sv_scnt params))
         || (negb (truthy (sv_rvec params)) && truthy (sv_rcnt params))
         || (negb (truthy (sv_fds params)) && truthy (sv_fdcnt params))
      then inl (- EINVAL)
      else
        svec <- sendv_svec params ;;
        rvec <- sendv_rvec params ;;
        fds <- sendv_fds params ;;
        inr (ret_int (servicefs_msg_sendv_interruptible c (sv_op params)
                        svec (sv_scnt params) rvec (sv_rcnt params)
                        fds (sv_fdcnt params) svc))
    else if cmd =? SERVICEFS_MSG_SEND_IMPULSE then
      params <- or_fault (copy_msg_send_impulse ubuf) ;;
      if (si_op params =? SERVICEFS_OP_UNIX_OPEN)
         || (si_op params =? SERVICEFS_OP_UNIX_CLOSE)
         || (negb (truthy (si_buf params)) && truthy (si_len params))
      then inl (- EINVAL)
      else
        inr (servicefs_msg_send_impulse c (si_op params) (si_buf params)
               (si_len params) svc)
    else
      inr (- ENOTTY, svc)).

(** [channel_poll]: the events set on the channel, as the [unsigned int]
    that the [int mask] converts to. *)
Definition channel_poll (c : channel) : Z :=
  let mask := to_int (c_events c) in
  mask mod 2 ^ 32.

(** [channel_release]: the release file operation of a channel; [c] is the
    channel behind [filp->private_data]. *)
Definition channel_release (ino : inode) (c : channel_ptr) : Z * inode :=
  match i_private ino with
  | None => (- EINVAL, ino)
  | Some svc =>
      let '(_, svc) := atomic_add_return (-1) svc in
      let svc :=
        if truthy (Z.land (s_flags svc) SERVICE_FLAGS_CLOSE_NOTIFY) then
          snd (servicefs_msg_sendv_uninterruptible c SERVICEFS_OP_UNIX_CLOSE
                 None 0 None 0 None 0 svc)
        else svc in
      let svc := remove_channel c svc in
      (0, mk_inode (Some svc))
  end.

Definition channel_read (c : channel_ptr) (buf : uptr) (len : Z)
    (svc : service) : Z * service :=
  let rvec := [mk_iov buf len] in
  servicefs_msg_sendv_interruptible c SERVICEFS_OP_UNIX_READ
    None 0 (Some rvec) 1 None 0 svc.

Definition channel_write (c : channel_ptr) (buf : uptr) (len : Z)
    (svc : service) : Z * service :=
  let svec := [mk_iov buf len] in
  servicefs_msg_sendv_interruptible c SERVICEFS_OP_UNIX_WRITE
    (Some svec) 1 None 0 None 0 svc.

End FileOperations.

(** ** The handlers as the design document describes them

    servicefs.c, which defines the handlers, is not part of the sources.
    The definitions below follow the design document, over the data model
    of servicefs_private.h. *)

Module SpecModel.

(** Modelled from the spec: the error taxonomy of the design document. *)
Inductive error :=
| InvalidArgument
| Canceled
| Interrupted
| ResourceExhausted
| Fault.

Definition id_in_use (used : list Z) (i : Z) : bool := existsb (Z.eqb i) used.

(** Modelled from the spec: the handle-space allocator (the [idr] users of
    servicefs.c are missing).  [allocate] returns the smallest
    non-negative integer not currently assigned in the namespace, and
    fails with ResourceExhausted when the ids of an [int] are used up. *)
Definition allocate (used : list Z) : error + Z :=
  match find (fun i => negb (id_in_use used i))
             (map Z.of_nat (seq 0 (S (length used)))) with
  | Some i => if i <=? INT_MAX then inr i else inl ResourceExhausted
  | None => inl ResourceExhausted
  end.

(** Modelled from the spec: [channel_new], declared in servicefs_private.h
    and defined in the missing servicefs.c.  It fails with Canceled if the
    service is dead, otherwise allocates a channel id and links the
    channel into the channel set of the service. *)
Definition channel_new (svc : service) : error + (channel_ptr * service) :=
  if __is_service_canceled svc then inl Canceled
  else
    match allocate (map c_id (s_channels svc)) with
    | inl e => inl e
    | inr id =>
        inr (id, set_s_channels svc (s_channels svc ++ [mk_channel id 0 0 0]))
    end.

(** Modelled from the spec: [get_new_channel], called by file.c and
    missing from the sources.  It is [channel_new] with the pointer result
    that file.c tests: the channel, or [NULL] on any failure. *)
Definition get_new_channel (svc : service) : option channel_ptr * service :=
  match channel_new svc with
  | inl _ => (None, svc)
  | inr (c, svc') => (Some c, svc')
  end.

(** Modelled from the spec: a message of a removed channel loses its
    owning channel and stays valid. *)
Definition detach_message (c : channel_ptr) (m : message) : message :=
  if match m_channel m with Some c' => c' =? c | None => false end then
    mk_message (m_id m) (m_priority m) (m_pid m) (m_tid m) (m_euid m)
      (m_egid m) None (m_op m) (m_sbuf m) (m_rbuf m) (m_fds m) (m_fdcnt m)
      (m_completed m) (m_interrupted m) (m_status m)
  else m.

(** Modelled from the spec: [remove_channel], called by file.c and missing
    from the sources.  It removes the channel from the channel set, which
    releases its id; a message of the channel that is active becomes
    detached. *)
Definition remove_channel (c : channel_ptr) (svc : service) : service :=
  set_s_active
    (set_s_channels svc
       (filter (fun ch => negb (c_id ch =? c)) (s_channels svc)))
    (map (detach_message c) (s_active svc)).

(** The channel set of a service contains the channel. *)
Definition linked (c : channel_ptr) (svc : service) : Prop :=
  In c (map c_id (s_channels svc)).

(** The lifecycle interface of file.c with the two channel functions of
    the design document and any cancellation. *)
Definition lifecycle (cancel : service -> Z * service) : LifecycleApi :=
  Build_LifecycleApi get_new_channel remove_channel cancel.

(** *** Sending *)

(** The identity of a sending context. *)
Record sender := mk_sender {
  snd_pid : Z; snd_tid : Z; snd_euid : Z; snd_egid : Z }.

(** A send operation of a channel: a transaction with its send vector,
    receive vector and handle list, or an impulse with its payload. *)
Inductive request :=
| Transaction (s : sender) (c : channel_ptr) (op : Z)
    (svec rvec : list iov) (fds : list Z)
| Impulse (s : sender) (c : channel_ptr) (op : Z) (data : list Z).

(** Modelled from the spec: the message that a transaction creates, not
    completed and not interrupted, and the impulse that a send-impulse
    creates. *)
Definition new_message (id : Z) (s : sender) (c : channel_ptr) (op : Z)
    (svec rvec : list iov) (fds : list Z) : message :=
  mk_message id 0 (snd_pid s) (snd_tid s) (snd_euid s) (snd_egid s) (Some c)
    op svec rvec fds (Z.of_nat (length fds)) false false 0.

Definition new_impulse (s : sender) (c : channel_ptr) (op : Z)
    (data : list Z) : impulse :=
  mk_impulse (snd_pid s) (snd_tid s) (snd_euid s) (snd_egid s) (Some c) op
    data (Z.of_nat (length data)).

(** Modelled from the spec: the queueing step of [servicefs_msg_sendv] and
    of [servicefs_msg_send_impulse] (servicefs.c is missing).  A send to a
    dead service fails with Canceled.  A transaction allocates a message
    id and is enqueued at the tail of the pending message queue; an
    impulse is appended to the impulse queue.  The suspension of the
    sender until the reply is not part of this step. *)
Definition send (r : request) (svc : service) : error + service :=
  if __is_service_canceled svc then inl Canceled
  else
    match r with
    | Transaction s c op svec rvec fds =>
        match allocate (map m_id (s_messages svc ++ s_active svc)) with
        | inl e => inl e
        | inr id =>
            inr (set_s_messages svc
                   (s_messages svc ++ [new_message id s c op svec rvec fds]))
        end
    | Impulse s c op data =>
        inr (set_s_impulses svc (s_impulses svc ++ [new_impulse s c op data]))
    end.

End SpecModel.

(** ** Concrete instances

    One choice of the constants and of the environment, on which the
    results below are exercised. *)

Module Example.

(** Ioctl numbers in the usual encoding: type ['x'], consecutive command
    numbers, the direction and size fields left zero. *)
Definition io (nr : Z) : Z := _IOC 0 servicefs_ioc_type nr 0.

Definition numbers : IoctlNumbers :=
  {| SERVICEFS_IOCTL_MAX_NR := 18;
     SERVICEFS_SET_SERVICE_CONTEXT := io 0;
     SERVICEFS_SET_CHANNEL_CONTEXT := io 1;
     SERVICEFS_MSG_RECV := io 2;
     SERVICEFS_MSG_READV := io 3;
     SERVICEFS_MSG_WRITEV := io 4;
     SERVICEFS_MSG_SEEK := io 5;
     SERVICEFS_MSG_BUSV := io 6;
     SERVICEFS_MSG_REPLY := io 7;
     SERVICEFS_MSG_REPLY_FD := io 8;
     SERVICEFS_MOD_CHANNEL_EVENTS := io 9;
     SERVICEFS_MSG_PUSH_FD := io 10;
     SERVICEFS_MSG_GET_FD := io 11;
     SERVICEFS_PUSH_CHANNEL := io 12;
     SERVICEFS_CLOSE_CHANNEL := io 13;
     SERVICEFS_CHECK_CHANNEL := io 14;
     SERVICEFS_CANCEL_SERVICE := io 15;
     SERVICEFS_MSG_SENDV := io 16;
     SERVICEFS_MSG_SEND_IMPULSE := io 17 |}.

Definition ops : OpCodes :=
  {| SERVICEFS_OP_UNIX_OPEN := 0;
     SERVICEFS_OP_UNIX_CLOSE := 1;
     SERVICEFS_OP_UNIX_READ := 2;
     SERVICEFS_OP_UNIX_WRITE := 3 |}.

(** User memory that holds one send-transaction request and one
    send-impulse request at address 4096 and faults elsewhere; every
    vector check and allocation succeeds. *)
Definition env (sendv : servicefs_msg_sendv_struct)
    (impulse : servicefs_msg_send_impulse_struct) : Environment :=
  {| copy_set_channel_context := fun _ => None;
     copy_msg_rwvec := fun _ => None;
     copy_msg_seek := fun _ => None;
     copy_msg_busv := fun _ => None;
     copy_msg_reply := fun _ => None;
     copy_mod_channel_events := fun _ => None;
     copy_msg_push_fd := fun _ => None;
     copy_msg_get_fd := fun _ => None;
     copy_push_channel := fun _ => None;
     copy_check_channel := fun _ => None;
     copy_msg_sendv := fun p => if p =? 4096 then Some sendv else None;
     copy_msg_send_impulse := fun p => if p =? 4096 then Some impulse else None;
     copy_ints := fun _ _ => Some [];
     rw_copy_check_uvector := fun _ _ _ => (0, []);
     kmalloc := fun _ => true;
     alloc_file := inr 512 |}.

Definition sender0 : SpecModel.sender := SpecModel.mk_sender 100 101 1000 1000.

Definition vector (v : option (list iov)) : list iov :=
  match v with
  | Some l => l
  | None => []
  end.

Definition handles (v : option (list Z)) : list Z :=
  match v with
  | Some l => l
  | None => []
  end.

(** A client API whose sends queue the message or the impulse as
    [SpecModel.send] does and return at once: with the status [0] when
    queued and with [-1] when refused. *)
Definition client : ClientApi :=
  {| servicefs_msg_sendv := fun c op svec _ rvec _ fds _ _ svc =>
       match SpecModel.send
               (SpecModel.Transaction sender0 c op (vector svec) (vector rvec)
                  (handles fds)) svc with
       | inr svc' => (0, svc')
       | inl _ => (-1, svc)
       end;
     servicefs_msg_send_impulse := fun c op _ _ svc =>
       match SpecModel.send (SpecModel.Impulse sender0 c op []) svc with
       | inr svc' => (0, svc')
       | inl _ => (-1, svc)
       end |}.

(** A client API whose transactions always fail with [-1] and leave the
    service as it was. *)
Definition failing_client : ClientApi :=
  {| servicefs_msg_sendv := fun _ _ _ _ _ _ _ _ _ svc => (-1, svc);
     servicefs_msg_send_impulse := fun _ _ _ _ svc => (-1, svc) |}.

(** A service API whose handlers all return [0] and change nothing. *)
Definition service_handlers : ServiceApi :=
  {| servicefs_push_channel := fun _ _ _ _ _ _ svc => (0, svc);
     servicefs_close_channel := fun _ svc => (0, svc);
     servicefs_check_channel := fun _ _ _ _ _ _ svc => (0, svc);
     servicefs_set_service_context := fun _ svc => (0, svc);
     servicefs_set_channel_context := fun _ _ svc => (0, svc);
     servicefs_msg_recv := fun _ _ _ svc => (0, svc);
     servicefs_msg_readv := fun _ _ _ svc => (0, svc);
     servicefs_msg_writev := fun _ _ _ svc => (0, svc);
     servicefs_msg_seek := fun _ _ _ svc => (0, svc);
     servicefs_msg_busv := fun _ _ _ _ _ svc => (0, svc);
     servicefs_msg_reply := fun _ _ svc => (0, svc);
     servicefs_msg_reply_fd := fun _ _ svc => (0, svc);
     servicefs_mod_channel_events := fun _ _ _ svc => (0, svc);
     servicefs_msg_push_fd := fun _ _ svc => (0, svc);
     servicefs_msg_get_fd := fun _ _ svc => (0, svc) |}.

Definition no_cancel (svc : service) : Z * service := (0, svc).

(** A service with default flags whose endpoint has not been opened. *)
Definition new_service : service :=
  mk_service 0 0 0 [] [] [] [] SERVICE_FLAGS_DEFAULT 0 None.

(** The same service after the open of the service side (file 256). *)
Definition open_service : service :=
  mk_service 1 0 0 [] [] [] [] SERVICE_FLAGS_DEFAULT 0 (Some 256).

(** The open service with one channel, of id 0, attached. *)
Definition service_with_channel : service :=
  mk_service 2 0 0 [mk_channel 0 0 0 0] [] [] [] SERVICE_FLAGS_DEFAULT 0
    (Some 256).

(** The open service after its cancellation. *)
Definition dead_service : service :=
  mk_service 1 0 0 [] [] [] []
    (Z.lor SERVICE_FLAGS_DEFAULT SERVICE_FLAGS_CANCELED) 0 (Some 256).

(** A file object fresh from the VFS, about to be opened. *)
Definition new_file (addr : Z) : file :=
  mk_file addr priv_null initial_file_operations 0.

Definition service_file : file :=
  mk_file 256 priv_service service_file_operations 0.

(** Requests with a reserved operation code. *)
Definition spoofed_sendv : servicefs_msg_sendv_struct :=
  mk_msg_sendv 0 0 0 0 0 0 0.

Definition spoofed_impulse : servicefs_msg_send_impulse_struct :=
  mk_msg_send_impulse 1 0 0.

(** Requests with a [NULL] array and a non-zero count. *)
Definition null_sendv : servicefs_msg_sendv_struct :=
  mk_msg_sendv 7 0 2 0 0 0 0.

Definition null_impulse : servicefs_msg_send_impulse_struct :=
  mk_msg_send_impulse 7 0 8.

(** The service with channel 0 attached and one impulse of it queued. *)
Definition service_with_impulse : service :=
  mk_service 2 0 0 [mk_channel 0 0 0 0]
    [SpecModel.new_impulse sender0 0 9 [1; 2]] [] [] SERVICE_FLAGS_DEFAULT 0
    (Some 256).

End Example.

(** ** Vocabulary of the properties *)

(** A send call of a client: the request structure that the ioctl
    argument points to. *)
Inductive send_call :=
| SendTransaction (params : servicefs_msg_sendv_struct)
| SendImpulse (params : servicefs_msg_send_impulse_struct).

Definition call_cmd `{IoctlNumbers} (k : send_call) : Z :=
  match k with
  | SendTransaction _ => SERVICEFS_MSG_SENDV
  | SendImpulse _ => SERVICEFS_MSG_SEND_IMPULSE
  end.

Definition call_op (k : send_call) : Z :=
  match k with
  | SendTransaction params => sv_op params
  | SendImpulse params => si_op params
  end.

(** The request structure of the call is what [copy_from_user] reads at
    the ioctl argument. *)
Definition call_at `{Environment} (arg : uptr) (k : send_call) : Prop :=
  match k with
  | SendTransaction params => copy_msg_sendv arg = Some params
  | SendImpulse params => copy_msg_send_impulse arg = Some params
  end.

(** The operation code is one of the two codes of the attach and detach
    notifications. *)
Definition reserved_op `{OpCodes} (op : Z) : Prop :=
  op = SERVICEFS_OP_UNIX_OPEN \/ op = SERVICEFS_OP_UNIX_CLOSE.

(** Some array pointer of the request is [NULL] while its element count is
    not zero. *)
Definition null_array_with_count (k : send_call) : Prop :=
  match k with
  | SendTransaction params =>
      (sv_svec params = 0 /\ sv_scnt params <> 0)
      \/ (sv_rvec params = 0 /\ sv_rcnt params <> 0)
      \/ (sv_fds params = 0 /\ sv_fdcnt params <> 0)
  | SendImpulse params => si_buf params = 0 /\ si_len params <> 0
  end.

(** The two channel commands are servicefs commands and, being the case
    labels of one switch, differ. *)
Definition channel_commands_wf `{IoctlNumbers} : Prop :=
  Forall servicefs_command channel_commands /\ NoDup channel_commands.

(** The readable events of a poll. *)
Definition readable : Z := Z.lor POLLIN POLLRDNORM.

(** The open that takes the reference count of the service to one. *)
Definition first_open (svc : service) : Prop :=
  fst (atomic_add_return 1 svc) = 1.

(** The service is configured for open, resp. close, notification. *)
Definition open_notify (svc : service) : Prop :=
  Z.land (s_flags svc) SERVICE_FLAGS_OPEN_NOTIFY <> 0.

Definition close_notify (svc : service) : Prop :=
  Z.land (s_flags svc) SERVICE_FLAGS_CLOSE_NOTIFY <> 0.

(** A command outside a list of case labels fails every test of the
    switch. *)
Ltac skip_cases H :=
  repeat match goal with
    | |- context [?a =? ?b] =>
        destruct (Z.eqb_spec a b) as [Heq | _];
        [exfalso; apply H; rewrite Heq; simpl; tauto | ]
    end.

(** ** file.c: the 32-bit entry points (CONFIG_COMPAT) *)

(** [compat_ptr]: the argument, converted to the 32-bit [compat_uptr_t],
    as a user pointer. *)
Definition compat_ptr (p : Z) : uptr := p mod 2 ^ 32.

(** servicefs_compat_ioctl.h: the ioctl numbers of the 32-bit calling
    convention. *)
Class CompatNumbers := {
  SERVICEFS_COMPAT_SET_SERVICE_CONTEXT : Z;
  SERVICEFS_COMPAT_SET_CHANNEL_CONTEXT : Z;
  SERVICEFS_COMPAT_MSG_RECV : Z;
  SERVICEFS_COMPAT_MSG_READV : Z;
  SERVICEFS_COMPAT_MSG_WRITEV : Z;
  SERVICEFS_COMPAT_MSG_SEEK : Z;
  SERVICEFS_COMPAT_MSG_BUSV : Z;
  SERVICEFS_COMPAT_MSG_REPLY : Z;
  SERVICEFS_COMPAT_MSG_REPLY_FD : Z;
  SERVICEFS_COMPAT_MOD_CHANNEL_EVENTS : Z;
  SERVICEFS_COMPAT_MSG_PUSH_FD : Z;
  SERVICEFS_COMPAT_MSG_GET_FD : Z;
  SERVICEFS_COMPAT_PUSH_CHANNEL : Z;
  SERVICEFS_COMPAT_CLOSE_CHANNEL : Z;
  SERVICEFS_COMPAT_CHECK_CHANNEL : Z;
  SERVICEFS_COMPAT_CANCEL_SERVICE : Z;
  SERVICEFS_COMPAT_MSG_SENDV : Z;
  SERVICEFS_COMPAT_MSG_SEND_IMPULSE : Z
}.

(** User memory of a 32-bit caller.  The [servicefs_compat_*] request
    structures have the members of the native ones, with 32-bit pointers,
    and are represented by the same records.  Each [copy_compat_*] member
    is [copy_from_user] at one compat structure type;
    [copy_compat_ints] reads an array of [compat_int_t]. *)
Class CompatEnvironment := {
  copy_compat_set_channel_context :
    uptr -> option servicefs_set_channel_context_struct;
  copy_compat_msg_rwvec : uptr -> option servicefs_msg_rwvec_struct;
  copy_compat_msg_seek : uptr -> option servicefs_msg_seek_struct;
  copy_compat_msg_busv : uptr -> option servicefs_msg_busv_struct;
  copy_compat_msg_reply : uptr -> option servicefs_msg_reply_struct;
  copy_compat_mod_channel_events :
    uptr -> option servicefs_mod_channel_events_struct;
  copy_compat_msg_push_fd : uptr -> option servicefs_msg_push_fd_struct;
  copy_compat_msg_get_fd : uptr -> option servicefs_msg_get_fd_struct;
  copy_compat_push_channel : uptr -> option servicefs_push_channel_struct;
  copy_compat_check_channel : uptr -> option servicefs_check_channel_struct;
  copy_compat_msg_sendv : uptr -> option servicefs_msg_sendv_struct;
  copy_compat_msg_send_impulse :
    uptr -> option servicefs_msg_send_impulse_struct;
  copy_compat_ints : uptr -> Z -> option (list Z);
  compat_rw_copy_check_uvector : Z -> uptr -> Z -> Z * list iov
}.

Section CompatOperations.

Context {compat_numbers : CompatNumbers} {numbers : IoctlNumbers}
        {ops : OpCodes} {env : Environment} {cenv : CompatEnvironment}.
Context {service_api : ServiceApi} {client_api : ClientApi}
        {lifecycle_api : LifecycleApi}.

(** [ret = compat_rw_copy_check_uvector(...); if (ret < 0) goto error;] *)
Definition checked_compat_uvector (type : Z) (uvec : uptr) (n : Z)
    : step (list iov) :=
  let '(r, vec) := compat_rw_copy_check_uvector type uvec n in
  if to_int r <? 0 then inl (to_int r) else inr vec.

(** [service_compat_ioctl]: dispatch of the service ioctl APIs for a
    32-bit caller. *)
Definition service_compat_ioctl (filp : file) (cmd arg : Z) (svc : service)
    : Z * service :=
  let ubuf : uptr := compat_ptr arg in
  if negb (_IOC_TYPE cmd =? servicefs_ioc_type) then (- ENOTTY, svc)
  else if _IOC_NR cmd >? SERVICEFS_IOCTL_MAX_NR then (- ENOTTY, svc)
  else finish svc (
    if cmd =? SERVICEFS_COMPAT_SET_SERVICE_CONTEXT then
      inr (servicefs_set_service_context ubuf svc)
    else if cmd =? SERVICEFS_COMPAT_SET_CHANNEL_CONTEXT then
      params <- or_fault (copy_compat_set_channel_context ubuf) ;;
      inr (servicefs_set_channel_context (scc_cid params)
             (compat_ptr (scc_ctx params)) svc)
    else if cmd =? SERVICEFS_COMPAT_MSG_RECV then
      let timeout :=
        if truthy (Z.land (f_flags filp) O_NONBLOCK) then 0
        else MAX_SCHEDULE_TIMEOUT in
      inr (servicefs_msg_recv ubuf timeout true svc)
    else if cmd =? SERVICEFS_COMPAT_MSG_READV then
      params <- or_fault (copy_compat_msg_rwvec ubuf) ;;
      let compat_vec := compat_ptr (rwv_vec params) in
      vec <- checked_compat_uvector WRITE compat_vec (rwv_len params) ;;
      inr (ret_int (servicefs_msg_readv (rwv_msgid params) vec
                      (rwv_len params) svc))
    else if cmd =? SERVICEFS_COMPAT_MSG_WRITEV then
      params <- or_fault (copy_compat_msg_rwvec ubuf) ;;
      let compat_vec := compat_ptr (rwv_vec params) in
      vec <- checked_compat_uvector READ compat_vec (rwv_len params) ;;
      inr (ret_int (servicefs_msg_writev (rwv_msgid params) vec
                      (rwv_len params) svc))
    else if cmd =? SERVICEFS_COMPAT_MSG_SEEK then
      params <- or_fault (copy_compat_msg_seek ubuf) ;;
      inr (servicefs_msg_seek (sk_msgid params) (sk_offset params)
             (sk_whence params) svc)
    else if cmd =? SERVICEFS_COMPAT_MSG_BUSV then
      params <- or_fault (copy_compat_msg_busv ubuf) ;;
      inr (ret_int (servicefs_msg_busv (bus_dst_msgid params)
                      (bus_dst_offset params) (bus_src_msgid params)
                      (bus_src_offset params) (bus_len params) svc))
    else if cmd =? SERVICEFS_COMPAT_MSG_REPLY then
      params <- or_fault (copy_compat_msg_reply ubuf) ;;
      inr (servicefs_msg_reply (rep_msgid params) (rep_retcode params) svc)
    else if cmd =? SERVICEFS_COMPAT_MSG_REPLY_FD then
      params <- or_fault (copy_compat_msg_reply ubuf) ;;
      inr (servicefs_msg_reply_fd (rep_msgid params)
             (to_uint (rep_retcode params)) svc)
    else if cmd =? SERVICEFS_COMPAT_MOD_CHANNEL_EVENTS then
      params <- or_fault (copy_compat_mod_channel_events ubuf) ;;
      inr (servicefs_mod_channel_events (mce_cid params) (mce_clr params)
             (mce_set params) svc)
    else if cmd =? SERVICEFS_COMPAT_MSG_PUSH_FD then
      params <- or_fault (copy_compat_msg_push_fd ubuf) ;;
      inr (servicefs_msg_push_fd (pfd_msgid params) (pfd_pushfd params) svc)
    else if cmd =? SERVICEFS_COMPAT_MSG_GET_FD then
      params <- or_fault (copy_compat_msg_get_fd ubuf) ;;
      inr (servicefs_msg_get_fd (gfd_msgid params) (gfd_index params) svc)
    else if cmd =? SERVICEFS_COMPAT_PUSH_CHANNEL then
      params <- or_fault (copy_compat_push_channel ubuf) ;;
      inr (servicefs_push_channel (pc_svcfd params) (pc_msgid params)
             (pc_flags params) (compat_ptr (pc_cid params))
             (compat_ptr (pc_ctx params)) true svc)
    else if cmd =? SERVICEFS_COMPAT_CLOSE_CHANNEL then
      inr (servicefs_close_channel (to_int arg) svc)
    else if cmd =? SERVICEFS_COMPAT_CHECK_CHANNEL then
      params <- or_fault (copy_compat_check_channel ubuf) ;;
      inr (servicefs_check_channel (cc_svcfd params) (cc_msgid params)
             (cc_index params) (compat_ptr (cc_cid params))
             (compat_ptr (cc_ctx params)) true svc)
    else if cmd =? SERVICEFS_COMPAT_CANCEL_SERVICE then
      inr (cancel_service svc)
    else
      inr (- ENOTTY, svc)).

Definition compat_sendv_svec (params : servicefs_msg_sendv_struct)
    : step (option (list iov)) :=
  if truthy (sv_svec params) then
    let compat_svec := compat_ptr (sv_svec params) in
    vec <- checked_compat_uvector READ compat_svec (sv_scnt params) ;;
    inr (Some vec)
  else inr None.

Definition compat_sendv_rvec (params : servicefs_msg_sendv_struct)
    : step (option (list iov)) :=
  if truthy (sv_rvec params) then
    let compat_rvec := compat_ptr (sv_rvec params) in
    vec <- checked_compat_uvector WRITE compat_rvec (sv_rcnt params) ;;
    inr (Some vec)
  else inr None.

Definition compat_sendv_fds (params : servicefs_msg_sendv_struct)
    : step (option (list Z)) :=
  if truthy (sv_fds params) then
    if sv_fdcnt params >? UIO_MAXIOV then inl (- EINVAL)
    else if (sv_fdcnt params >? UIO_FASTIOV)
            && negb (kmalloc (4 * sv_fdcnt params)) then inl (- ENOMEM)
    else
      fds <- or_fault (copy_compat_ints (compat_ptr (sv_fds params))
                         (sv_fdcnt params)) ;;
      inr (Some fds)
  else inr None.

(** [channel_compat_ioctl]: dispatch of the channel (client) ioctl APIs
    for a 32-bit caller. *)
Definition channel_compat_ioctl (c : channel_ptr) (cmd arg : Z)
    (svc : service) : Z * service :=
  let ubuf : uptr := compat_ptr arg in
  if negb (_IOC_TYPE cmd =? servicefs_ioc_type) then (- ENOTTY, svc)
  else if _IOC_NR cmd >? SERVICEFS_IOCTL_MAX_NR then (- ENOTTY, svc)
  else finish svc (
    if cmd =? SERVICEFS_COMPAT_MSG_SENDV then
      params <- or_fault (copy_compat_msg_sendv ubuf) ;;
      if (sv_op params =? SERVICEFS_OP_UNIX_OPEN)
         || (sv_op params =? SERVICEFS_OP_UNIX_CLOSE)
         || (negb (truthy (sv_svec params)) && truthy (sv_scnt params))
         || (negb (truthy (sv_rvec params)) && truthy (sv_rcnt params))
         || (negb (truthy (sv_fds params)) && truthy (sv_fdcnt params))
      then inl (- EINVAL)
      else
        svec <- compat_sendv_svec params ;;
        rvec <- compat_sendv_rvec params ;;
        fds <- compat_sendv_fds params ;;
        inr (ret_int (servicefs_msg_sendv_interruptible c (sv_op params)
                        svec (sv_scnt params) rvec (sv_rcnt params)
                        fds (sv_fdcnt params) svc))
    else if cmd =? SERVICEFS_COMPAT_MSG_SEND_IMPULSE then
      params <- or_fault (copy_compat_msg_send_impulse ubuf) ;;
      if (si_op params =? SERVICEFS_OP_UNIX_OPEN)
         || (si_op params =? SERVICEFS_OP_UNIX_CLOSE)
         || (negb (truthy (si_buf params)) && truthy (si_len params))
      then inl (- EINVAL)
      else
        inr (servicefs_msg_send_impulse c (si_op params)
               (compat_ptr (si_buf params)) (si_len params) svc)
    else
      inr (- ENOTTY, svc)).

End CompatOperations.

(** ** Vocabulary of the further properties *)

(** The service commands are servicefs commands and, being the case
    labels of one switch, differ. *)
Definition service_commands_wf `{IoctlNumbers} : Prop :=
  Forall servicefs_command service_commands /\ NoDup service_commands.

(** The service commands whose argument points to a request structure. *)
Definition service_request_commands `{IoctlNumbers} : list Z :=
  [ SERVICEFS_SET_CHANNEL_CONTEXT; SERVICEFS_MSG_READV;
    SERVICEFS_MSG_WRITEV; SERVICEFS_MSG_SEEK; SERVICEFS_MSG_BUSV;
    SERVICEFS_MSG_REPLY; SERVICEFS_MSG_REPLY_FD;
    SERVICEFS_MOD_CHANNEL_EVENTS; SERVICEFS_MSG_PUSH_FD;
    SERVICEFS_MSG_GET_FD; SERVICEFS_PUSH_CHANNEL; SERVICEFS_CHECK_CHANNEL ].

(** The commands that [service_compat_ioctl] and [channel_compat_ioctl]
    have a case for, in the order of the switch. *)
Definition service_compat_commands `{CompatNumbers} : list Z :=
  [ SERVICEFS_COMPAT_SET_SERVICE_CONTEXT;
    SERVICEFS_COMPAT_SET_CHANNEL_CONTEXT;
    SERVICEFS_COMPAT_MSG_RECV; SERVICEFS_COMPAT_MSG_READV;
    SERVICEFS_COMPAT_MSG_WRITEV; SERVICEFS_COMPAT_MSG_SEEK;
    SERVICEFS_COMPAT_MSG_BUSV; SERVICEFS_COMPAT_MSG_REPLY;
    SERVICEFS_COMPAT_MSG_REPLY_FD; SERVICEFS_COMPAT_MOD_CHANNEL_EVENTS;
    SERVICEFS_COMPAT_MSG_PUSH_FD; SERVICEFS_COMPAT_MSG_GET_FD;
    SERVICEFS_COMPAT_PUSH_CHANNEL; SERVICEFS_COMPAT_CLOSE_CHANNEL;
    SERVICEFS_COMPAT_CHECK_CHANNEL; SERVICEFS_COMPAT_CANCEL_SERVICE ].

Definition channel_compat_commands `{CompatNumbers} : list Z :=
  [ SERVICEFS_COMPAT_MSG_SENDV; SERVICEFS_COMPAT_MSG_SEND_IMPULSE ].

Definition service_compat_commands_wf `{CompatNumbers} `{IoctlNumbers}
    : Prop :=
  Forall servicefs_command service_compat_commands
  /\ NoDup service_compat_commands.

Definition channel_compat_commands_wf `{CompatNumbers} `{IoctlNumbers}
    : Prop :=
  Forall servicefs_command channel_compat_commands
  /\ NoDup channel_compat_commands.

(** The service commands whose handler is told the calling convention
    ([is_compat]). *)
Definition convention_commands `{IoctlNumbers} : list Z :=
  [ SERVICEFS_MSG_RECV; SERVICEFS_PUSH_CHANNEL; SERVICEFS_CHECK_CHANNEL ].

(** No request structure can be read at the address. *)
Definition user_fault `{Environment} (p : uptr) : Prop :=
  copy_set_channel_context p = None
  /\ copy_msg_rwvec p = None
  /\ copy_msg_seek p = None
  /\ copy_msg_busv p = None
  /\ copy_msg_reply p = None
  /\ copy_mod_channel_events p = None
  /\ copy_msg_push_fd p = None
  /\ copy_msg_get_fd p = None
  /\ copy_push_channel p = None
  /\ copy_check_channel p = None
  /\ copy_msg_sendv p = None
  /\ copy_msg_send_impulse p = None.

(** The memory of the 32-bit caller holds, at every address, the request
    that the native memory holds there, and the same vectors and handle
    arrays. *)
Definition mirrors `{CompatEnvironment} `{Environment} : Prop :=
  (forall p, copy_compat_set_channel_context p = copy_set_channel_context p)
  /\ (forall p, copy_compat_msg_rwvec p = copy_msg_rwvec p)
  /\ (forall p, copy_compat_msg_seek p = copy_msg_seek p)
  /\ (forall p, copy_compat_msg_busv p = copy_msg_busv p)
  /\ (forall p, copy_compat_msg_reply p = copy_msg_reply p)
  /\ (forall p, copy_compat_mod_channel_events p = copy_mod_channel_events p)
  /\ (forall p, copy_compat_msg_push_fd p = copy_msg_push_fd p)
  /\ (forall p, copy_compat_msg_get_fd p = copy_msg_get_fd p)
  /\ (forall p, copy_compat_push_channel p = copy_push_channel p)
  /\ (forall p, copy_compat_check_channel p = copy_check_channel p)
  /\ (forall p, copy_compat_msg_sendv p = copy_msg_sendv p)
  /\ (forall p, copy_compat_msg_send_impulse p = copy_msg_send_impulse p)
  /\ (forall p n, copy_compat_ints p n = copy_ints p n)
  /\ (forall t p n,
        compat_rw_copy_check_uvector t p n = rw_copy_check_uvector t p n).

(** The pointer members of the requests of a 32-bit caller are 32-bit
    values ([compat_uptr_t]). *)
Definition pointers_32bit `{CompatEnvironment} : Prop :=
  (forall p r, copy_compat_set_channel_context p = Some r ->
     compat_ptr (scc_ctx r) = scc_ctx r)
  /\ (forall p r, copy_compat_msg_rwvec p = Some r ->
        compat_ptr (rwv_vec r) = rwv_vec r)
  /\ (forall p r, copy_compat_push_channel p = Some r ->
        compat_ptr (pc_cid r) = pc_cid r /\ compat_ptr (pc_ctx r) = pc_ctx r)
  /\ (forall p r, copy_compat_check_channel p = Some r ->
        compat_ptr (cc_cid r) = cc_cid r /\ compat_ptr (cc_ctx r) = cc_ctx r)
  /\ (forall p r, copy_compat_msg_sendv p = Some r ->
        compat_ptr (sv_svec r) = sv_svec r
        /\ compat_ptr (sv_rvec r) = sv_rvec r
        /\ compat_ptr (sv_fds r) = sv_fds r)
  /\ (forall p r, copy_compat_msg_send_impulse p = Some r ->
        compat_ptr (si_buf r) = si_buf r).

(** The handlers leave the reference count of the service alone. *)
Definition count_neutral `{ClientApi} `{LifecycleApi} : Prop :=
  (forall svc, s_count (snd (get_new_channel svc)) = s_count svc)
  /\ (forall c svc, s_count (remove_channel c svc) = s_count svc)
  /\ (forall svc, s_count (snd (cancel_service svc)) = s_count svc)
  /\ (forall c op svec scnt rvec rcnt fds fdcnt state svc,
        s_count (snd (servicefs_msg_sendv c op svec scnt rvec rcnt fds fdcnt
                        state svc)) = s_count svc).

(** The service of an inode, when it has one. *)
Definition inode_count (ino : inode) : option Z :=
  match i_private ino with
  | Some svc => Some (s_count svc)
  | None => None
  end.

(** The pairwise differences of an explicit list of case labels, from its
    [NoDup]. *)
Ltac split_nodup H :=
  repeat (apply NoDup_cons_iff in H;
          let Hnotin := fresh "Hnotin" in
          destruct H as [Hnotin H]; simpl in Hnotin).

(** The tests of a switch on a command that is one of its case labels:
    the test on the label itself succeeds, the tests on the labels before
    it fail. *)
Ltac differ Heq :=
  exfalso;
  match goal with
  | H : ~ _ |- _ =>
      apply H; solve [repeat first [left; exact Heq | right]]
  end.

Ltac case_tests :=
  repeat match goal with
    | |- context [?a =? ?a] => rewrite (Z.eqb_refl a); cbv iota
    | |- context [?a =? ?b] =>
        destruct (Z.eqb_spec a b) as [Heq | _]; [differ Heq | ]; cbv iota
    end.

(** ** Further concrete instances *)

Module Example32.

Definition io32 (nr : Z) : Z := _IOC 0 servicefs_ioc_type nr 1.

Definition numbers : CompatNumbers :=
  {| SERVICEFS_COMPAT_SET_SERVICE_CONTEXT := io32 0;
     SERVICEFS_COMPAT_SET_CHANNEL_CONTEXT := io32 1;
     SERVICEFS_COMPAT_MSG_RECV := io32 2;
     SERVICEFS_COMPAT_MSG_READV := io32 3;
     SERVICEFS_COMPAT_MSG_WRITEV := io32 4;
     SERVICEFS_COMPAT_MSG_SEEK := io32 5;
     SERVICEFS_COMPAT_MSG_BUSV := io32 6;
     SERVICEFS_COMPAT_MSG_REPLY := io32 7;
     SERVICEFS_COMPAT_MSG_REPLY_FD := io32 8;
     SERVICEFS_COMPAT_MOD_CHANNEL_EVENTS := io32 9;
     SERVICEFS_COMPAT_MSG_PUSH_FD := io32 10;
     SERVICEFS_COMPAT_MSG_GET_FD := io32 11;
     SERVICEFS_COMPAT_PUSH_CHANNEL := io32 12;
     SERVICEFS_COMPAT_CLOSE_CHANNEL := io32 13;
     SERVICEFS_COMPAT_CHECK_CHANNEL := io32 14;
     SERVICEFS_COMPAT_CANCEL_SERVICE := io32 15;
     SERVICEFS_COMPAT_MSG_SENDV := io32 16;
     SERVICEFS_COMPAT_MSG_SEND_IMPULSE := io32 17 |}.

(** The memory of a 32-bit caller that holds what a native memory
    holds. *)
Definition cenv_of (env : Environment) : CompatEnvironment :=
  {| copy_compat_set_channel_context := copy_set_channel_context;
     copy_compat_msg_rwvec := copy_msg_rwvec;
     copy_compat_msg_seek := copy_msg_seek;
     copy_compat_msg_busv := copy_msg_busv;
     copy_compat_msg_reply := copy_msg_reply;
     copy_compat_mod_channel_events := copy_mod_channel_events;
     copy_compat_msg_push_fd := copy_msg_push_fd;
     copy_compat_msg_get_fd := copy_msg_get_fd;
     copy_compat_push_channel := copy_push_channel;
     copy_compat_check_channel := copy_check_channel;
     copy_compat_msg_sendv := copy_msg_sendv;
     copy_compat_msg_send_impulse := copy_msg_send_impulse;
     copy_compat_ints := copy_ints;
     compat_rw_copy_check_uvector := rw_copy_check_uvector |}.

(** User memory that holds one read/write-vector request at address 4096
    and faults elsewhere; the vector check yields [check]. *)
Definition env_rwvec (request : servicefs_msg_rwvec_struct)
    (check : Z * list iov) : Environment :=
  {| copy_set_channel_context := fun _ => None;
     copy_msg_rwvec := fun p => if p =? 4096 then Some request else None;
     copy_msg_seek := fun _ => None;
     copy_msg_busv := fun _ => None;
     copy_msg_reply := fun _ => None;
     copy_mod_channel_events := fun _ => None;
     copy_msg_push_fd := fun _ => None;
     copy_msg_get_fd := fun _ => None;
     copy_push_channel := fun _ => None;
     copy_check_channel := fun _ => None;
     copy_msg_sendv := fun _ => None;
     copy_msg_send_impulse := fun _ => None;
     copy_ints := fun _ _ => None;
     rw_copy_check_uvector := fun _ _ _ => check;
     kmalloc := fun _ => true;
     alloc_file := inr 512 |}.

(** A service API that records the channel id of the last close-channel
    call, resp. the timeout of the last receive call, in the context
    field of the service and returns [0]. *)
Definition recording_handlers : ServiceApi :=
  {| servicefs_push_channel := fun _ _ _ _ _ _ svc => (0, svc);
     servicefs_close_channel := fun cid svc =>
       (0, mk_service (s_count svc) (s_channel_start svc)
             (s_message_start svc) (s_channels svc) (s_impulses svc)
             (s_messages svc) (s_active svc) (s_flags svc) cid (s_filp svc));
     servicefs_check_channel := fun _ _ _ _ _ _ svc => (0, svc);
     servicefs_set_service_context := fun _ svc => (0, svc);
     servicefs_set_channel_context := fun _ _ svc => (0, svc);
     servicefs_msg_recv := fun _ timeout _ svc =>
       (0, mk_service (s_count svc) (s_channel_start svc)
             (s_message_start svc) (s_channels svc) (s_impulses svc)
             (s_messages svc) (s_active svc) (s_flags svc) timeout
             (s_filp svc));
     servicefs_msg_readv := fun _ _ _ svc => (0, svc);
     servicefs_msg_writev := fun _ _ _ svc => (0, svc);
     servicefs_msg_seek := fun _ _ _ svc => (0, svc);
     servicefs_msg_busv := fun _ _ _ _ _ svc => (0, svc);
     servicefs_msg_reply := fun _ _ svc => (0, svc);
     servicefs_msg_reply_fd := fun _ _ svc => (0, svc);
     servicefs_mod_channel_events := fun _ _ _ svc => (0, svc);
     servicefs_msg_push_fd := fun _ _ svc => (0, svc);
     servicefs_msg_get_fd := fun _ _ svc => (0, svc) |}.

(** A send-transaction request for a read of 16 bytes into the buffer at
    8192, with its receive vector at 12288. *)
Definition read_request : servicefs_msg_sendv_struct :=
  mk_msg_sendv 2 0 0 12288 1 0 0.

(** User memory that holds [read_request] at 4096 and its vector at
    12288. *)
Definition env_read : Environment :=
  {| copy_set_channel_context := fun _ => None;
     copy_msg_rwvec := fun _ => None;
     copy_msg_seek := fun _ => None;
     copy_msg_busv := fun _ => None;
     copy_msg_reply := fun _ => None;
     copy_mod_channel_events := fun _ => None;
     copy_msg_push_fd := fun _ => None;
     copy_msg_get_fd := fun _ => None;
     copy_push_channel := fun _ => None;
     copy_check_channel := fun _ => None;
     copy_msg_sendv := fun p => if p =? 4096 then Some read_request else None;
     copy_msg_send_impulse := fun _ => None;
     copy_ints := fun _ _ => None;
     rw_copy_check_uvector := fun _ p _ =>
       if p =? 12288 then (16, [mk_iov 8192 16]) else (- EFAULT, []);
     kmalloc := fun _ => true;
     alloc_file := inr 512 |}.

(** A send-transaction request with more handles than [UIO_MAXIOV]. *)
Definition crowded_request : servicefs_msg_sendv_struct :=
  mk_msg_sendv 7 0 0 0 0 16384 1025.

End Example32.

(** ** Results on the machine integers *)

Lemma to_int_id (z : Z) : int_range z -> to_int z = z.
Proof.
  unfold int_range, INT_MIN, INT_MAX, to_int. intros Hz.
  rewrite Z.mod_small; lia.
Qed.


Lemma truthy_true (z : Z) : truthy z = true <-> z <> 0.
Proof.
  unfold truthy. destruct (Z.eqb_spec z 0); simpl; split; congruence.
Qed.

(** ** Results on the dispatchers *)

Section Dispatch.

Context {numbers : IoctlNumbers} {ops : OpCodes} {env : Environment}.
Context {service_api : ServiceApi} {client_api : ClientApi}
        {lifecycle_api : LifecycleApi}.

Lemma servicefs_command_head (cmd : Z) :
  servicefs_command cmd ->
  negb (_IOC_TYPE cmd =? servicefs_ioc_type) = false
  /\ (_IOC_NR cmd >? SERVICEFS_IOCTL_MAX_NR) = false.
Proof.
  intros [Ht Hn]. split.
  - rewrite Ht. reflexivity.
  - rewrite Z.gtb_ltb. apply Z.ltb_ge. exact Hn.
Qed.

(** The send-transaction case of [channel_ioctl] once the request is
    read: the validation and what follows it. *)
Lemma channel_ioctl_sendv (c : channel_ptr) (arg : uptr) (svc : service)
    (params : servicefs_msg_sendv_struct) :
  channel_commands_wf ->
  copy_msg_sendv arg = Some params ->
  (sv_op params =? SERVICEFS_OP_UNIX_OPEN)
  || (sv_op params =? SERVICEFS_OP_UNIX_CLOSE)
  || (negb (truthy (sv_svec params)) && truthy (sv_scnt params))
  || (negb (truthy (sv_rvec params)) && truthy (sv_rcnt params))
  || (negb (truthy (sv_fds params)) && truthy (sv_fdcnt params)) = true ->
  channel_ioctl c SERVICEFS_MSG_SENDV arg svc = (- EINVAL, svc).
Proof.
  intros [Hcmd _] Hcopy Hbad.
  apply Forall_inv in Hcmd. apply servicefs_command_head in Hcmd.
  destruct Hcmd as [Ht Hn].
  unfold channel_ioctl. rewrite Ht, Hn, Z.eqb_refl, Hcopy. simpl.
  rewrite Hbad. reflexivity.
Qed.

(** The send-impulse case of [channel_ioctl] once the request is read. *)
Lemma channel_ioctl_send_impulse (c : channel_ptr) (arg : uptr)
    (svc : service) (params : servicefs_msg_send_impulse_struct) :
  channel_commands_wf ->
  copy_msg_send_impulse arg = Some params ->
  (si_op params =? SERVICEFS_OP_UNIX_OPEN)
  || (si_op params =? SERVICEFS_OP_UNIX_CLOSE)
  || (negb (truthy (si_buf params)) && truthy (si_len params)) = true ->
  channel_ioctl c SERVICEFS_MSG_SEND_IMPULSE arg svc = (- EINVAL, svc).
Proof.
  intros [Hcmd Hnd] Hcopy Hbad.
  assert (Hne : (SERVICEFS_MSG_SEND_IMPULSE =? SERVICEFS_MSG_SENDV) = false).
  { apply Z.eqb_neq. intros Heq. inversion Hnd as [| x l Hnotin _]; subst.
    apply Hnotin. left. exact Heq. }
  apply Forall_inv_tail, Forall_inv in Hcmd.
  apply servicefs_command_head in Hcmd. destruct Hcmd as [Ht Hn].
  unfold channel_ioctl. rewrite Ht, Hn, Hne, Z.eqb_refl, Hcopy. simpl.
  rewrite Hbad. reflexivity.
Qed.

(** A send-impulse call that passes the validation is handed to
    [servicefs_msg_send_impulse] unchanged. *)
Lemma channel_ioctl_send_impulse_accepted (c : channel_ptr) (arg : uptr)
    (svc : service) (params : servicefs_msg_send_impulse_struct) :
  channel_commands_wf ->
  copy_msg_send_impulse arg = Some params ->
  ~ reserved_op (si_op params) ->
  (si_buf params = 0 -> si_len params = 0) ->
  channel_ioctl c SERVICEFS_MSG_SEND_IMPULSE arg svc
  = servicefs_msg_send_impulse c (si_op params) (si_buf params)
      (si_len params) svc.
Proof.
  intros [Hcmd Hnd] Hcopy Hop Hbuf.
  assert (Hne : (SERVICEFS_MSG_SEND_IMPULSE =? SERVICEFS_MSG_SENDV) = false).
  { apply Z.eqb_neq. intros Heq. inversion Hnd as [| x l Hnotin _]; subst.
    apply Hnotin. left. exact Heq. }
  apply Forall_inv_tail, Forall_inv in Hcmd.
  apply servicefs_command_head in Hcmd. destruct Hcmd as [Ht Hn].
  unfold channel_ioctl. rewrite Ht, Hn, Hne, Z.eqb_refl, Hcopy. simpl.
  unfold reserved_op in Hop.
  destruct (Z.eqb_spec (si_op params) SERVICEFS_OP_UNIX_OPEN) as [Ho | _];
    [tauto | ].
  destruct (Z.eqb_spec (si_op params) SERVICEFS_OP_UNIX_CLOSE) as [Hc | _];
    [tauto | ].
  simpl. unfold truthy.
  destruct (Z.eqb_spec (si_buf params) 0) as [Hz | _]; simpl.
  - rewrite (Hbuf Hz). reflexivity.
  - reflexivity.
Qed.

(** C1.  A send-transaction call or a send-impulse call whose operation
    code is one of the two reserved codes of the attach and detach
    notifications ([SERVICEFS_OP_UNIX_OPEN], [SERVICEFS_OP_UNIX_CLOSE])
    fails with [-EINVAL] (InvalidArgument), and the service is left as it
    was whatever the send handlers would do: no message or impulse is
    created or enqueued. *)
Theorem reserved_op_rejected (c : channel_ptr) (arg : uptr) (svc : service)
    (k : send_call) :
  channel_commands_wf ->
  call_at arg k ->
  reserved_op (call_op k) ->
  channel_ioctl c (call_cmd k) arg svc = (- EINVAL, svc).
Proof.
  intros Hwf Hat Hop. destruct k as [params | params]; simpl in *.
  - apply channel_ioctl_sendv with (params := params); trivial.
    destruct Hop as [-> | ->]; rewrite Z.eqb_refl;
      rewrite ?orb_true_r; reflexivity.
  - apply channel_ioctl_send_impulse with (params := params); trivial.
    destruct Hop as [-> | ->]; rewrite Z.eqb_refl;
      rewrite ?orb_true_r; reflexivity.
Qed.

Lemma null_with_count (p n : Z) :
  p = 0 -> n <> 0 -> negb (truthy p) && truthy n = true.
Proof.
  intros -> Hn. apply truthy_true in Hn. rewrite Hn. reflexivity.
Qed.

(** C8.  A send-transaction call or a send-impulse call in which some
    array pointer (send vector, receive vector, handle list, impulse
    payload buffer) is [NULL] while its element count is not zero fails
    with [-EINVAL] (InvalidArgument), and the service is left as it was
    whatever the send handlers would do: the call fails before any
    message is created. *)
Theorem null_array_rejected (c : channel_ptr) (arg : uptr) (svc : service)
    (k : send_call) :
  channel_commands_wf ->
  call_at arg k ->
  null_array_with_count k ->
  channel_ioctl c (call_cmd k) arg svc = (- EINVAL, svc).
Proof.
  intros Hwf Hat Hnull. destruct k as [params | params]; simpl in *.
  - apply channel_ioctl_sendv with (params := params); trivial.
    destruct Hnull as [[Hp Hn] | [[Hp Hn] | [Hp Hn]]];
      rewrite (null_with_count _ _ Hp Hn); rewrite ?orb_true_r; reflexivity.
  - apply channel_ioctl_send_impulse with (params := params); trivial.
    destruct Hnull as [Hp Hn].
    rewrite (null_with_count _ _ Hp Hn); rewrite ?orb_true_r; reflexivity.
Qed.

End Dispatch.

Lemma reserved_op_rejected_witness :
  @call_at (Example.env Example.spoofed_sendv Example.spoofed_impulse) 4096
    (SendImpulse Example.spoofed_impulse)
  /\ @reserved_op Example.ops (call_op (SendImpulse Example.spoofed_impulse))
  /\ @channel_ioctl Example.numbers Example.ops
       (Example.env Example.spoofed_sendv Example.spoofed_impulse)
       Example.client 0
       (@call_cmd Example.numbers (SendImpulse Example.spoofed_impulse))
       4096 Example.service_with_channel
     = (- EINVAL, Example.service_with_channel).
Proof.
  split; [reflexivity | split; [right; reflexivity | ]].
  apply reserved_op_rejected.
  - split.
    + repeat constructor; vm_compute; discriminate.
    + repeat constructor; vm_compute; intuition discriminate.
  - reflexivity.
  - right. reflexivity.
Defined.

Lemma null_array_rejected_witness :
  @call_at (Example.env Example.null_sendv Example.null_impulse) 4096
    (SendTransaction Example.null_sendv)
  /\ null_array_with_count (SendTransaction Example.null_sendv)
  /\ @channel_ioctl Example.numbers Example.ops
       (Example.env Example.null_sendv Example.null_impulse)
       Example.client 0
       (@call_cmd Example.numbers (SendTransaction Example.null_sendv))
       4096 Example.service_with_channel
     = (- EINVAL, Example.service_with_channel).
Proof.
  assert (Hnull : null_array_with_count (SendTransaction Example.null_sendv)).
  { left. split; [reflexivity | discriminate]. }
  split; [reflexivity | split; [exact Hnull | ]].
  apply null_array_rejected.
  - split.
    + repeat constructor; vm_compute; discriminate.
    + repeat constructor; vm_compute; intuition discriminate.
  - reflexivity.
  - exact Hnull.
Defined.

Section UnknownCommand.

Context {numbers : IoctlNumbers} {ops : OpCodes} {env : Environment}.
Context {service_api : ServiceApi} {client_api : ClientApi}
        {lifecycle_api : LifecycleApi}.

Lemma service_ioctl_default (filp : file) (cmd arg : Z) (svc : service) :
  ~ In cmd service_commands ->
  service_ioctl filp cmd arg svc = (- ENOTTY, svc).
Proof.
  intros H. unfold service_ioctl.
  destruct (negb (_IOC_TYPE cmd =? servicefs_ioc_type)); [reflexivity | ].
  destruct (_IOC_NR cmd >? SERVICEFS_IOCTL_MAX_NR); [reflexivity | ].
  skip_cases H. reflexivity.
Qed.

Lemma channel_ioctl_default (c : channel_ptr) (cmd arg : Z) (svc : service) :
  ~ In cmd channel_commands ->
  channel_ioctl c cmd arg svc = (- ENOTTY, svc).
Proof.
  intros H. unfold channel_ioctl.
  destruct (negb (_IOC_TYPE cmd =? servicefs_ioc_type)); [reflexivity | ].
  destruct (_IOC_NR cmd >? SERVICEFS_IOCTL_MAX_NR); [reflexivity | ].
  skip_cases H. reflexivity.
Qed.

(** C9, as amended.  A call on the service file with a command that is
    not one of the service commands, and a call on a channel file with a
    command that is not one of the channel commands, fails with [-ENOTTY]
    (not with InvalidArgument, which is [-EINVAL]); no handler runs and
    the service is left as it was. *)
Theorem unknown_command_enotty (filp : file) (c : channel_ptr)
    (cmd arg : Z) (svc : service) :
  (~ In cmd service_commands ->
   service_ioctl filp cmd arg svc = (- ENOTTY, svc))
  /\ (~ In cmd channel_commands ->
      channel_ioctl c cmd arg svc = (- ENOTTY, svc)).
Proof.
  split.
  - apply service_ioctl_default.
  - apply channel_ioctl_default.
Qed.

End UnknownCommand.

(** The command number 18 of type ['x'] is no servicefs command of the
    example numbers, and the receive command is no channel command. *)
Lemma unknown_command_enotty_witness :
  @service_ioctl Example.numbers
    (Example.env Example.spoofed_sendv Example.spoofed_impulse)
    Example.service_handlers (SpecModel.lifecycle Example.no_cancel)
    Example.service_file (Example.io 18) 0 Example.open_service
  = (- ENOTTY, Example.open_service)
  /\ @channel_ioctl Example.numbers Example.ops
       (Example.env Example.spoofed_sendv Example.spoofed_impulse)
       Example.client 0 (@SERVICEFS_MSG_RECV Example.numbers) 0
       Example.service_with_channel
     = (- ENOTTY, Example.service_with_channel).
Proof.
  split.
  - apply (proj1 (@unknown_command_enotty Example.numbers Example.ops
                    (Example.env Example.spoofed_sendv Example.spoofed_impulse)
                    Example.service_handlers Example.client
                    (SpecModel.lifecycle Example.no_cancel)
                    Example.service_file 0
                    (Example.io 18) 0 Example.open_service)).
    vm_compute. intuition discriminate.
  - apply (proj2 (@unknown_command_enotty Example.numbers Example.ops
                    (Example.env Example.spoofed_sendv Example.spoofed_impulse)
                    Example.service_handlers Example.client
                    (SpecModel.lifecycle Example.no_cancel)
                    Example.service_file 0
                    (@SERVICEFS_MSG_RECV Example.numbers) 0
                    Example.service_with_channel)).
    vm_compute. intuition discriminate.
Defined.

(** C9, as stated, fails: the result of a call with an unknown command is
    not [-EINVAL], on the service file and on a channel file alike. *)
Lemma unknown_command_not_einval :
  fst (@service_ioctl Example.numbers
         (Example.env Example.spoofed_sendv Example.spoofed_impulse)
         Example.service_handlers (SpecModel.lifecycle Example.no_cancel)
         Example.service_file (Example.io 18) 0 Example.open_service)
  <> - EINVAL
  /\ fst (@channel_ioctl Example.numbers Example.ops
            (Example.env Example.spoofed_sendv Example.spoofed_impulse)
            Example.client 0 (@SERVICEFS_MSG_RECV Example.numbers) 0
            Example.service_with_channel)
     <> - EINVAL.
Proof.
  split; vm_compute; discriminate.
Qed.

(** ** Results on polling *)

(** C3.  The poll of a service reports the readable events
    ([POLLIN | POLLRDNORM]) if and only if its pending message queue or its
    impulse queue is not empty, and reports no events otherwise. *)
Theorem service_poll_readable (svc : service) :
  (service_poll svc = readable <->
   s_messages svc <> [] \/ s_impulses svc <> [])
  /\ (service_poll svc = 0 <->
      s_messages svc = [] /\ s_impulses svc = []).
Proof.
  unfold service_poll, readable.
  destruct (s_impulses svc) as [| i imps], (s_messages svc) as [| m msgs];
    simpl; (split; split);
    try discriminate; try tauto; try (intros _; right; discriminate);
    try (intros _; left; discriminate); try (intros [H | H]; congruence);
    try (intros [H1 H2]; discriminate).
Qed.

Lemma service_poll_readable_witness :
  service_poll Example.service_with_impulse = readable
  /\ service_poll Example.open_service = 0.
Proof.
  split.
  - apply (proj1 (service_poll_readable Example.service_with_impulse)).
    right. discriminate.
  - apply (proj2 (service_poll_readable Example.open_service)).
    split; reflexivity.
Defined.

(** ** Results on the allocator and the channel set of the design
    document *)

Lemma id_in_use_In (used : list Z) (i : Z) :
  SpecModel.id_in_use used i = true <-> In i used.
Proof.
  unfold SpecModel.id_in_use. rewrite existsb_exists. split.
  - intros [x [Hin Heq]]. apply Z.eqb_eq in Heq. subst. exact Hin.
  - intros Hin. exists i. split; [exact Hin | apply Z.eqb_refl].
Qed.

(** An allocated id is a non-negative [int] that was not in use. *)
Lemma allocate_fresh (used : list Z) (id : Z) :
  SpecModel.allocate used = inr id ->
  ~ In id used /\ 0 <= id <= INT_MAX.
Proof.
  unfold SpecModel.allocate.
  destruct (find _ _) as [i |] eqn:Hfind; [ | discriminate].
  destruct (Z.leb_spec i INT_MAX) as [Hle | _]; [ | discriminate].
  intros [= <-]. apply find_some in Hfind. destruct Hfind as [Hin Hfree].
  split.
  - intros Hused. apply id_in_use_In in Hused. rewrite Hused in Hfree.
    discriminate.
  - apply in_map_iff in Hin. destruct Hin as [n [<- _]]. lia.
Qed.

Lemma find_candidates_first (f : Z -> bool) (len : nat) :
  forall (start : nat) (i : Z),
    find f (map Z.of_nat (seq start len)) = Some i ->
    forall j, Z.of_nat start <= j < i -> f j = false.
Proof.
  induction len as [| len IH]; intros start i Hfind j Hj; simpl in Hfind.
  - discriminate.
  - destruct (f (Z.of_nat start)) eqn:Hstart.
    + injection Hfind as <-. lia.
    + destruct (Z.eq_dec j (Z.of_nat start)) as [-> | Hne].
      * exact Hstart.
      * apply (IH (S start) i Hfind). lia.
Qed.

(** The allocated id is the smallest one that is free. *)
Lemma allocate_smallest (used : list Z) (id : Z) :
  SpecModel.allocate used = inr id ->
  forall j, 0 <= j < id -> In j used.
Proof.
  unfold SpecModel.allocate.
  destruct (find _ _) as [i |] eqn:Hfind; [ | discriminate].
  destruct (i <=? INT_MAX); [ | discriminate].
  intros [= <-] j Hj. apply id_in_use_In.
  pose proof (find_candidates_first _ _ 0%nat i Hfind j) as Hfree.
  simpl in Hfree. specialize (Hfree Hj).
  destruct (SpecModel.id_in_use used j); [reflexivity | discriminate].
Qed.

Lemma candidates_NoDup (n : nat) : NoDup (map Z.of_nat (seq 0 n)).
Proof.
  apply Injective_map_NoDup.
  - intros x y. apply Nat2Z.inj.
  - apply seq_NoDup.
Qed.

(** The allocator succeeds while fewer ids are in use than an [int] has
    non-negative values. *)
Lemma allocate_succeeds (used : list Z) :
  Z.of_nat (length used) <= INT_MAX ->
  exists id, SpecModel.allocate used = inr id.
Proof.
  intros Hlen. unfold SpecModel.allocate.
  destruct (find _ _) as [i |] eqn:Hfind.
  - apply find_some in Hfind. destruct Hfind as [Hin _].
    apply in_map_iff in Hin. destruct Hin as [n [<- Hn]].
    apply in_seq in Hn.
    destruct (Z.leb_spec (Z.of_nat n) INT_MAX) as [_ | Hgt].
    + eexists. reflexivity.
    + lia.
  - exfalso.
    assert (Hincl : incl (map Z.of_nat (seq 0 (S (length used)))) used).
    { intros x Hx. apply id_in_use_In.
      pose proof (find_none _ _ Hfind x Hx) as Hnone. simpl in Hnone.
      destruct (SpecModel.id_in_use used x); [reflexivity | discriminate]. }
    apply NoDup_incl_length in Hincl; [ | apply candidates_NoDup].
    rewrite length_map, length_seq in Hincl. lia.
Qed.

Lemma get_new_channel_dead (svc : service) :
  __is_service_canceled svc = true ->
  SpecModel.channel_new svc = inl SpecModel.Canceled
  /\ SpecModel.get_new_channel svc = (None, svc).
Proof.
  intros Hdead. unfold SpecModel.get_new_channel, SpecModel.channel_new.
  rewrite Hdead. split; reflexivity.
Qed.

(** A channel that [get_new_channel] returns was not linked before, is
    linked afterwards, and nothing but the channel set has changed. *)
Lemma get_new_channel_links (svc svc' : service) (c : channel_ptr) :
  SpecModel.get_new_channel svc = (Some c, svc') ->
  ~ SpecModel.linked c svc
  /\ svc' = set_s_channels svc (s_channels svc ++ [mk_channel c 0 0 0]).
Proof.
  unfold SpecModel.get_new_channel, SpecModel.channel_new.
  destruct (__is_service_canceled svc); [discriminate | ].
  destruct (SpecModel.allocate _) as [e | id] eqn:Halloc; [discriminate | ].
  intros [= <- <-]. apply allocate_fresh in Halloc. split.
  - exact (proj1 Halloc).
  - reflexivity.
Qed.

Lemma linked_after_link (svc : service) (c : channel_ptr) :
  SpecModel.linked c
    (set_s_channels svc (s_channels svc ++ [mk_channel c 0 0 0])).
Proof.
  unfold SpecModel.linked. simpl. rewrite map_app. apply in_or_app.
  right. left. reflexivity.
Qed.

(** On a live service with room in the id space, [get_new_channel]
    returns a channel. *)
Lemma get_new_channel_live (svc : service) :
  __is_service_canceled svc = false ->
  Z.of_nat (length (s_channels svc)) <= INT_MAX ->
  exists c svc', SpecModel.get_new_channel svc = (Some c, svc').
Proof.
  intros Hlive Hlen.
  unfold SpecModel.get_new_channel, SpecModel.channel_new. rewrite Hlive.
  destruct (allocate_succeeds (map c_id (s_channels svc))) as [id Hid].
  - rewrite length_map. exact Hlen.
  - rewrite Hid. eexists. eexists. reflexivity.
Qed.


(** Removing one channel leaves every other channel linked. *)
Lemma remove_channel_keeps (svc : service) (c c' : channel_ptr) :
  c' <> c ->
  SpecModel.linked c' svc ->
  SpecModel.linked c' (SpecModel.remove_channel c svc).
Proof.
  unfold SpecModel.linked, SpecModel.remove_channel. simpl.
  intros Hne Hin. apply in_map_iff in Hin. destruct Hin as [ch [Hid Hch]].
  apply in_map_iff. exists ch. split; [exact Hid | ].
  apply filter_In. split; [exact Hch | ].
  rewrite Hid. apply negb_true_iff, Z.eqb_neq. exact Hne.
Qed.

(** ** Results on open and release *)


Section Open.

Context {ops : OpCodes} {client_api : ClientApi}
        {lifecycle_api : LifecycleApi}.

(** The first open: the file becomes the service side. *)
Lemma initial_open_first (ino : inode) (filp : file) (svc : service) :
  i_private ino = Some svc ->
  first_open svc ->
  initial_open ino filp =
    (0,
     mk_inode (Some (set_s_filp (snd (atomic_add_return 1 svc))
                       (Some (f_addr filp)))),
     mk_file (f_addr filp) priv_service service_file_operations
       (f_flags filp)).
Proof.
  intros Hsvc Hfirst. unfold initial_open, first_open in *. rewrite Hsvc.
  destruct (atomic_add_return 1 svc) as [count svc0]. simpl in *.
  rewrite Hfirst. reflexivity.
Qed.

(** A later open on which [get_new_channel] fails. *)
Lemma initial_open_no_channel (ino : inode) (filp : file)
    (svc svc1 : service) :
  i_private ino = Some svc ->
  ~ first_open svc ->
  get_new_channel (snd (atomic_add_return 1 svc)) = (None, svc1) ->
  initial_open ino filp = (- EINVAL, mk_inode (Some svc1), filp).
Proof.
  intros Hsvc Hlater Hnew. unfold initial_open, first_open in *.
  rewrite Hsvc. destruct (atomic_add_return 1 svc) as [count svc0].
  simpl in *. apply Z.eqb_neq in Hlater. rewrite Hlater, Hnew. reflexivity.
Qed.

(** A later open on which [get_new_channel] returns a channel. *)
Lemma initial_open_channel (ino : inode) (filp : file) (svc svc1 : service)
    (c : channel_ptr) :
  i_private ino = Some svc ->
  ~ first_open svc ->
  get_new_channel (snd (atomic_add_return 1 svc)) = (Some c, svc1) ->
  initial_open ino filp =
    let filp' :=
      mk_file (f_addr filp) (priv_channel c) channel_file_operations
        (f_flags filp) in
    if truthy (Z.land (s_flags svc1) SERVICE_FLAGS_OPEN_NOTIFY) then
      let r :=
        servicefs_msg_sendv c SERVICEFS_OP_UNIX_OPEN None 0 None 0 None 0
          TASK_UNINTERRUPTIBLE svc1 in
      (to_int (fst r), mk_inode (Some (snd r)), filp')
    else (0, mk_inode (Some svc1), filp').
Proof.
  intros Hsvc Hlater Hnew. unfold initial_open, first_open in *.
  rewrite Hsvc. destruct (atomic_add_return 1 svc) as [count svc0].
  simpl in *. apply Z.eqb_neq in Hlater. rewrite Hlater, Hnew.
  destruct (truthy _); [ | reflexivity].
  unfold servicefs_msg_sendv_uninterruptible.
  destruct (servicefs_msg_sendv _ _ _ _ _ _ _ _ _ _). reflexivity.
Qed.

(** C6.  On an attach ([initial_open] that is not the first open and on
    which [get_new_channel] returns the new channel [c]) to a service
    configured for open notification, [initial_open] calls
    [servicefs_msg_sendv] for [c] with the operation
    [SERVICEFS_OP_UNIX_OPEN], no send vector, no receive vector and no
    handles (all counts zero) and the task state [TASK_UNINTERRUPTIBLE],
    on the state in which [c] is linked; the return value and the final
    state of the attach are those of that send, so the send is complete
    when the attach returns. *)
Theorem attach_sends_open_notification (ino : inode) (filp : file)
    (svc svc1 : service) (c : channel_ptr) :
  i_private ino = Some svc ->
  ~ first_open svc ->
  get_new_channel (snd (atomic_add_return 1 svc)) = (Some c, svc1) ->
  open_notify svc1 ->
  initial_open ino filp =
    (to_int (fst (servicefs_msg_sendv c SERVICEFS_OP_UNIX_OPEN
                    None 0 None 0 None 0 TASK_UNINTERRUPTIBLE svc1)),
     mk_inode (Some (snd (servicefs_msg_sendv c SERVICEFS_OP_UNIX_OPEN
                            None 0 None 0 None 0 TASK_UNINTERRUPTIBLE svc1))),
     mk_file (f_addr filp) (priv_channel c) channel_file_operations
       (f_flags filp)).
Proof.
  intros Hsvc Hlater Hnew Hnotify.
  rewrite (initial_open_channel ino filp svc svc1 c Hsvc Hlater Hnew).
  apply truthy_true in Hnotify. simpl. rewrite Hnotify. reflexivity.
Qed.


(** Whenever [servicefs_create_channel] returns a file, the file holds
    the channel that [get_new_channel] returned and the service is in the
    state that [get_new_channel] left: nothing else has run. *)
Lemma servicefs_create_channel_file {env : Environment} (ino ino' : inode)
    (svc_file file : file) (flags : Z) (svc : service) :
  i_private ino = Some svc ->
  servicefs_create_channel ino svc_file flags = KReturn (inr file, ino') ->
  exists addr c svc',
    alloc_file = inr addr
    /\ ino' = mk_inode (Some svc')
    /\ file = mk_file addr (priv_channel c) initial_file_operations
                (Z.lor O_RDONLY (Z.land flags (Z.lor O_NONBLOCK O_CLOEXEC)))
    /\ get_new_channel (snd (atomic_add_return 1 svc)) = (Some c, svc').
Proof.
  intros Hsvc. unfold servicefs_create_channel, create_channel_open.
  destruct alloc_file as [err | addr]; [discriminate | ].
  rewrite Hsvc. destruct (atomic_add_return 1 svc) as [count svc0]. simpl.
  destruct (count <? 1); [discriminate | ].
  destruct (get_new_channel svc0) as [[c |] svc1].
  - simpl. intros [= <- <-]. exists addr, c, svc1. repeat split.
  - simpl. discriminate.
Qed.

End Open.

(** The second open of the example service: channel 0 is created and its
    attach notification is queued before the open returns. *)
Lemma attach_sends_open_notification_witness :
  open_notify Example.service_with_channel
  /\ @initial_open Example.ops Example.client
       (SpecModel.lifecycle Example.no_cancel)
       (mk_inode (Some Example.open_service)) (Example.new_file 300)
     = (0,
        mk_inode
          (Some (set_s_messages Example.service_with_channel
                   [SpecModel.new_message 0 Example.sender0 0
                      (@SERVICEFS_OP_UNIX_OPEN Example.ops) [] [] []])),
        mk_file 300 (priv_channel 0) channel_file_operations 0).
Proof.
  assert (Hnotify : open_notify Example.service_with_channel)
    by (vm_compute; discriminate).
  split; [exact Hnotify | ].
  apply (@attach_sends_open_notification Example.ops Example.client
           (SpecModel.lifecycle Example.no_cancel)
           (mk_inode (Some Example.open_service)) (Example.new_file 300)
           Example.open_service Example.service_with_channel 0).
  - reflexivity.
  - vm_compute. discriminate.
  - reflexivity.
  - exact Hnotify.
Defined.



Section Lifecycle.

Context {ops : OpCodes} {env : Environment} {client_api : ClientApi}.
Variable cancel : service -> Z * service.

(** C5, what the code does.  An attach ([initial_open] that is not the
    first open) to a dead service links no channel, and it fails with
    [-EINVAL], the code of InvalidArgument: [channel_new] of the design
    document fails with Canceled, [get_new_channel] returns [NULL], and
    [initial_open] answers every [NULL] with [-EINVAL]. *)
Theorem attach_dead_service_einval (ino : inode) (filp : file)
    (svc : service) :
  i_private ino = Some svc ->
  ~ first_open svc ->
  __is_service_canceled svc = true ->
  SpecModel.channel_new (snd (atomic_add_return 1 svc))
  = inl SpecModel.Canceled
  /\ initial_open (lifecycle_api := SpecModel.lifecycle cancel) ino filp
     = (- EINVAL, mk_inode (Some (snd (atomic_add_return 1 svc))), filp)
  /\ s_channels (snd (atomic_add_return 1 svc)) = s_channels svc.
Proof.
  intros Hsvc Hlater Hdead.
  assert (Hdead' :
    __is_service_canceled (snd (atomic_add_return 1 svc)) = true)
    by exact Hdead.
  destruct (get_new_channel_dead _ Hdead') as [Hnew Hptr].
  split; [exact Hnew | ]. split; [ | reflexivity].
  apply (initial_open_no_channel (lifecycle_api := SpecModel.lifecycle cancel))
    with (svc := svc); assumption.
Qed.

(** Whenever [servicefs_create_channel] returns a file, the file holds a
    channel that was not linked before and is linked afterwards, and the
    queues of the service are as they were. *)
Lemma service_channel_only_links (ino ino' : inode) (svc_file file : file)
    (flags : Z) (svc : service) :
  i_private ino = Some svc ->
  servicefs_create_channel (lifecycle_api := SpecModel.lifecycle cancel)
    ino svc_file flags = KReturn (inr file, ino') ->
  exists c svc',
    i_private ino' = Some svc'
    /\ private_data file = priv_channel c
    /\ f_op file = initial_file_operations
    /\ ~ SpecModel.linked c svc
    /\ SpecModel.linked c svc'
    /\ s_messages svc' = s_messages svc
    /\ s_impulses svc' = s_impulses svc
    /\ s_active svc' = s_active svc.
Proof.
  intros Hsvc Hcreate.
  destruct (servicefs_create_channel_file
              (lifecycle_api := SpecModel.lifecycle cancel)
              _ _ _ _ _ _ Hsvc Hcreate)
    as [addr [c [svc' [_ [-> [-> Hnew]]]]]].
  apply get_new_channel_links in Hnew. destruct Hnew as [Hfresh ->].
  exists c. eexists. split; [reflexivity | ].
  split; [reflexivity | ]. split; [reflexivity | ].
  split; [exact Hfresh | ]. split; [apply linked_after_link | ].
  repeat split.
Qed.

(** C7.  When the service creates a channel for itself
    ([servicefs_create_channel], on a live service with a free channel id
    and a file to allocate), a new channel is created and linked, and it
    is returned in a file that still has the initial file operations.  No
    attach notification is sent, whatever the notification flags of the
    service are: the function calls no send handler, and the pending,
    active and impulse queues of the service are as they were. *)
Theorem service_channel_without_notification (ino : inode) (svc_file : file)
    (flags addr : Z) (svc : service) :
  i_private ino = Some svc ->
  alloc_file = inr addr ->
  0 <= s_count svc < INT_MAX ->
  __is_service_canceled svc = false ->
  Z.of_nat (length (s_channels svc)) <= INT_MAX ->
  exists c svc',
    servicefs_create_channel (lifecycle_api := SpecModel.lifecycle cancel)
      ino svc_file flags
    = KReturn
        (inr (mk_file addr (priv_channel c) initial_file_operations
                (Z.lor O_RDONLY (Z.land flags (Z.lor O_NONBLOCK O_CLOEXEC)))),
         mk_inode (Some svc'))
    /\ ~ SpecModel.linked c svc
    /\ SpecModel.linked c svc'
    /\ s_messages svc' = s_messages svc
    /\ s_impulses svc' = s_impulses svc
    /\ s_active svc' = s_active svc.
Proof.
  intros Hsvc Halloc Hcount Hlive Hroom.
  destruct (get_new_channel_live (snd (atomic_add_return 1 svc)) Hlive Hroom)
    as [c [svc' Hnew]].
  exists c, svc'. split.
  - unfold servicefs_create_channel, create_channel_open.
    rewrite Halloc. simpl. rewrite Hsvc.
    unfold atomic_add_return in *. simpl in *.
    rewrite to_int_id by (unfold int_range, INT_MIN, INT_MAX in *; lia).
    rewrite to_int_id in Hnew
      by (unfold int_range, INT_MIN, INT_MAX in *; lia).
    destruct (Z.ltb_spec (s_count svc + 1) 1) as [Hlt | _]; [lia | ].
    rewrite Hnew. reflexivity.
  - apply get_new_channel_links in Hnew. destruct Hnew as [Hfresh ->].
    split; [exact Hfresh | ]. split; [apply linked_after_link | ].
    repeat split.
Qed.


End Lifecycle.

(** The second open of the dead example service. *)
Lemma attach_dead_service_einval_witness :
  __is_service_canceled Example.dead_service = true
  /\ @initial_open Example.ops Example.client
       (SpecModel.lifecycle Example.no_cancel)
       (mk_inode (Some Example.dead_service)) (Example.new_file 300)
     = (- EINVAL, mk_inode (Some (set_s_count Example.dead_service 2)),
        Example.new_file 300).
Proof.
  split; [reflexivity | ].
  apply (proj1 (proj2
    (@attach_dead_service_einval Example.ops Example.client
       Example.no_cancel (mk_inode (Some Example.dead_service))
       (Example.new_file 300) Example.dead_service
       eq_refl
       ltac:(vm_compute; discriminate)
       eq_refl))).
Defined.

(** The example service, configured for open notification, creates a
    channel for itself: channel 0 is linked and nothing is queued. *)
Lemma service_channel_without_notification_witness :
  open_notify Example.open_service
  /\ exists c svc',
       @servicefs_create_channel
         (Example.env Example.spoofed_sendv Example.spoofed_impulse)
         (SpecModel.lifecycle Example.no_cancel)
         (mk_inode (Some Example.open_service)) Example.service_file
         O_NONBLOCK
       = KReturn
           (inr (mk_file 512 (priv_channel c) initial_file_operations
                   (Z.lor O_RDONLY
                      (Z.land O_NONBLOCK (Z.lor O_NONBLOCK O_CLOEXEC)))),
            mk_inode (Some svc'))
       /\ ~ SpecModel.linked c Example.open_service
       /\ SpecModel.linked c svc'
       /\ s_messages svc' = s_messages Example.open_service
       /\ s_impulses svc' = s_impulses Example.open_service
       /\ s_active svc' = s_active Example.open_service.
Proof.
  split; [vm_compute; discriminate | ].
  apply (@service_channel_without_notification
           (Example.env Example.spoofed_sendv Example.spoofed_impulse)
           Example.no_cancel
           (mk_inode (Some Example.open_service)) Example.service_file
           O_NONBLOCK 512 Example.open_service).
  - reflexivity.
  - reflexivity.
  - vm_compute. split; [discriminate | reflexivity].
  - reflexivity.
  - vm_compute. discriminate.
Defined.


(** ** Further results on the client dispatchers *)

Lemma truthy_false (z : Z) : truthy z = false <-> z = 0.
Proof.
  unfold truthy. destruct (Z.eqb_spec z 0); simpl; split; congruence.
Qed.

Lemma null_or_no_count (p n : Z) :
  negb (truthy p) && truthy n = false -> truthy p = false -> n = 0.
Proof.
  intros Hv Hp. rewrite Hp in Hv. simpl in Hv. apply truthy_false. exact Hv.
Qed.

Lemma not_reserved `{OpCodes} (op : Z) :
  (op =? SERVICEFS_OP_UNIX_OPEN) = false ->
  (op =? SERVICEFS_OP_UNIX_CLOSE) = false ->
  ~ reserved_op op.
Proof.
  intros Ho Hc [Heq | Heq]; rewrite Heq, Z.eqb_refl in *; discriminate.
Qed.

Section ClientOutcomes.

Context {numbers : IoctlNumbers} {ops : OpCodes} {env : Environment}.
Context {client_api : ClientApi}.

Lemma checked_uvector_error (type : Z) (uvec : uptr) (n ret : Z) :
  checked_uvector type uvec n = inl ret -> ret < 0.
Proof.
  unfold checked_uvector.
  destruct (rw_copy_check_uvector type uvec n) as [r vec].
  destruct (Z.ltb_spec (to_int r) 0) as [Hneg | _]; [ | discriminate].
  intros [= <-]. exact Hneg.
Qed.

Lemma sendv_svec_outcome (params : servicefs_msg_sendv_struct) :
  match sendv_svec params with
  | inl ret => ret < 0
  | inr None => truthy (sv_svec params) = false
  | inr (Some _) => truthy (sv_svec params) = true
  end.
Proof.
  unfold sendv_svec. destruct (truthy (sv_svec params)); [ | reflexivity].
  destruct (checked_uvector _ _ _) as [ret | vec] eqn:Hcheck; simpl.
  - exact (checked_uvector_error _ _ _ _ Hcheck).
  - reflexivity.
Qed.

Lemma sendv_rvec_outcome (params : servicefs_msg_sendv_struct) :
  match sendv_rvec params with
  | inl ret => ret < 0
  | inr None => truthy (sv_rvec params) = false
  | inr (Some _) => truthy (sv_rvec params) = true
  end.
Proof.
  unfold sendv_rvec. destruct (truthy (sv_rvec params)); [ | reflexivity].
  destruct (checked_uvector _ _ _) as [ret | vec] eqn:Hcheck; simpl.
  - exact (checked_uvector_error _ _ _ _ Hcheck).
  - reflexivity.
Qed.

(** The handle list of a request: an error, no list for a [NULL]
    pointer, or a list of at most [UIO_MAXIOV] handles. *)
Lemma sendv_fds_outcome (params : servicefs_msg_sendv_struct) :
  match sendv_fds params with
  | inl ret => ret < 0
  | inr None => truthy (sv_fds params) = false
  | inr (Some _) =>
      truthy (sv_fds params) = true /\ sv_fdcnt params <= UIO_MAXIOV
  end.
Proof.
  unfold sendv_fds. destruct (truthy (sv_fds params)); [ | reflexivity].
  destruct (Z.gtb_spec (sv_fdcnt params) UIO_MAXIOV) as [Hmany | Hfew].
  - reflexivity.
  - destruct ((sv_fdcnt params >? UIO_FASTIOV) && _); [reflexivity | ].
    destruct (copy_ints _ _); simpl; [split; [reflexivity | exact Hfew] | ].
    reflexivity.
Qed.

(** X1.  Whatever the command and the user memory, [channel_ioctl] either
    fails with a negative result and leaves the service as it was, or
    performs exactly one send for its own channel: an interruptible
    transaction or an impulse whose operation code is the one of the
    request and is not reserved, in which a [NULL] array goes with a zero
    count and a handle list has at most [UIO_MAXIOV] entries. *)
Theorem channel_ioctl_outcomes (c : channel_ptr) (cmd arg : Z)
    (svc : service) :
  (fst (channel_ioctl c cmd arg svc) < 0
   /\ snd (channel_ioctl c cmd arg svc) = svc)
  \/ (exists params svec rvec fds,
        copy_msg_sendv arg = Some params
        /\ ~ reserved_op (sv_op params)
        /\ (svec = None -> sv_scnt params = 0)
        /\ (rvec = None -> sv_rcnt params = 0)
        /\ match fds with
           | None => sv_fdcnt params = 0
           | Some _ => sv_fdcnt params <= UIO_MAXIOV
           end
        /\ channel_ioctl c cmd arg svc
           = ret_int (servicefs_msg_sendv c (sv_op params) svec
                        (sv_scnt params) rvec (sv_rcnt params) fds
                        (sv_fdcnt params) TASK_INTERRUPTIBLE svc))
  \/ (exists params,
        copy_msg_send_impulse arg = Some params
        /\ ~ reserved_op (si_op params)
        /\ (si_buf params = 0 -> si_len params = 0)
        /\ channel_ioctl c cmd arg svc
           = servicefs_msg_send_impulse c (si_op params) (si_buf params)
               (si_len params) svc).
Proof.
  unfold channel_ioctl.
  destruct (negb (_IOC_TYPE cmd =? servicefs_ioc_type));
    [left; split; reflexivity | ].
  destruct (_IOC_NR cmd >? SERVICEFS_IOCTL_MAX_NR);
    [left; split; reflexivity | ].
  destruct (cmd =? SERVICEFS_MSG_SENDV).
  - destruct (copy_msg_sendv arg) as [params |] eqn:Hcopy;
      [ | left; split; reflexivity].
    simpl.
    destruct (_ || _) eqn:Hvalid; [left; split; reflexivity | ].
    apply orb_false_iff in Hvalid. destruct Hvalid as [Hvalid Hfds].
    apply orb_false_iff in Hvalid. destruct Hvalid as [Hvalid Hrvec].
    apply orb_false_iff in Hvalid. destruct Hvalid as [Hvalid Hsvec].
    apply orb_false_iff in Hvalid. destruct Hvalid as [Hopen Hclose].
    pose proof (sendv_svec_outcome params) as Hs.
    pose proof (sendv_rvec_outcome params) as Hr.
    pose proof (sendv_fds_outcome params) as Hf.
    destruct (sendv_svec params) as [ret | svec];
      [left; split; [exact Hs | reflexivity] | ].
    destruct (sendv_rvec params) as [ret | rvec];
      [left; split; [exact Hr | reflexivity] | ].
    destruct (sendv_fds params) as [ret | fds];
      [left; split; [exact Hf | reflexivity] | ].
    right. left. exists params, svec, rvec, fds. simpl.
    split; [reflexivity | ].
    split; [exact (not_reserved _ Hopen Hclose) | ].
    split; [intros ->; exact (null_or_no_count _ _ Hsvec Hs) | ].
    split; [intros ->; exact (null_or_no_count _ _ Hrvec Hr) | ].
    split; [ | reflexivity].
    destruct fds; [exact (proj2 Hf) | exact (null_or_no_count _ _ Hfds Hf)].
  - destruct (cmd =? SERVICEFS_MSG_SEND_IMPULSE);
      [ | left; split; reflexivity].
    destruct (copy_msg_send_impulse arg) as [params |] eqn:Hcopy;
      [ | left; split; reflexivity].
    simpl.
    destruct (_ || _) eqn:Hvalid; [left; split; reflexivity | ].
    apply orb_false_iff in Hvalid. destruct Hvalid as [Hvalid Hbuf].
    apply orb_false_iff in Hvalid. destruct Hvalid as [Hopen Hclose].
    right. right. exists params. simpl.
    split; [reflexivity | ].
    split; [exact (not_reserved _ Hopen Hclose) | ].
    split; [ | reflexivity].
    intros Hnull. apply (null_or_no_count _ _ Hbuf).
    apply truthy_false. exact Hnull.
Qed.

End ClientOutcomes.

Section CompatClientOutcomes.

Context {compat_numbers : CompatNumbers} {numbers : IoctlNumbers}
        {ops : OpCodes} {env : Environment} {cenv : CompatEnvironment}.
Context {client_api : ClientApi}.

Lemma checked_compat_uvector_error (type : Z) (uvec : uptr) (n ret : Z) :
  checked_compat_uvector type uvec n = inl ret -> ret < 0.
Proof.
  unfold checked_compat_uvector.
  destruct (compat_rw_copy_check_uvector type uvec n) as [r vec].
  destruct (Z.ltb_spec (to_int r) 0) as [Hneg | _]; [ | discriminate].
  intros [= <-]. exact Hneg.
Qed.

Lemma compat_sendv_svec_outcome (params : servicefs_msg_sendv_struct) :
  match compat_sendv_svec params with
  | inl ret => ret < 0
  | inr None => truthy (sv_svec params) = false
  | inr (Some _) => truthy (sv_svec params) = true
  end.
Proof.
  unfold compat_sendv_svec.
  destruct (truthy (sv_svec params)); [ | reflexivity].
  destruct (checked_compat_uvector _ _ _) as [ret | vec] eqn:Hcheck; simpl.
  - exact (checked_compat_uvector_error _ _ _ _ Hcheck).
  - reflexivity.
Qed.

Lemma compat_sendv_rvec_outcome (params : servicefs_msg_sendv_struct) :
  match compat_sendv_rvec params with
  | inl ret => ret < 0
  | inr None => truthy (sv_rvec params) = false
  | inr (Some _) => truthy (sv_rvec params) = true
  end.
Proof.
  unfold compat_sendv_rvec.
  destruct (truthy (sv_rvec params)); [ | reflexivity].
  destruct (checked_compat_uvector _ _ _) as [ret | vec] eqn:Hcheck; simpl.
  - exact (checked_compat_uvector_error _ _ _ _ Hcheck).
  - reflexivity.
Qed.

Lemma compat_sendv_fds_outcome (params : servicefs_msg_sendv_struct) :
  match compat_sendv_fds params with
  | inl ret => ret < 0
  | inr None => truthy (sv_fds params) = false
  | inr (Some _) =>
      truthy (sv_fds params) = true /\ sv_fdcnt params <= UIO_MAXIOV
  end.
Proof.
  unfold compat_sendv_fds.
  destruct (truthy (sv_fds params)); [ | reflexivity].
  destruct (Z.gtb_spec (sv_fdcnt params) UIO_MAXIOV) as [Hmany | Hfew].
  - reflexivity.
  - destruct ((sv_fdcnt params >? UIO_FASTIOV) && _); [reflexivity | ].
    destruct (copy_compat_ints _ _); simpl;
      [split; [reflexivity | exact Hfew] | ].
    reflexivity.
Qed.

(** X2.  The 32-bit entry point keeps the same discipline:
    [channel_compat_ioctl] either fails with a negative result and leaves
    the service as it was, or performs exactly one send for its own
    channel, interruptible, with the operation code of the request, which
    is not reserved; a [NULL] array goes with a zero count, a handle list
    has at most [UIO_MAXIOV] entries, and the payload pointer of an
    impulse is passed as a 32-bit pointer. *)
Theorem channel_compat_ioctl_outcomes (c : channel_ptr) (cmd arg : Z)
    (svc : service) :
  (fst (channel_compat_ioctl c cmd arg svc) < 0
   /\ snd (channel_compat_ioctl c cmd arg svc) = svc)
  \/ (exists params svec rvec fds,
        copy_compat_msg_sendv (compat_ptr arg) = Some params
        /\ ~ reserved_op (sv_op params)
        /\ (svec = None -> sv_scnt params = 0)
        /\ (rvec = None -> sv_rcnt params = 0)
        /\ match fds with
           | None => sv_fdcnt params = 0
           | Some _ => sv_fdcnt params <= UIO_MAXIOV
           end
        /\ channel_compat_ioctl c cmd arg svc
           = ret_int (servicefs_msg_sendv c (sv_op params) svec
                        (sv_scnt params) rvec (sv_rcnt params) fds
                        (sv_fdcnt params) TASK_INTERRUPTIBLE svc))
  \/ (exists params,
        copy_compat_msg_send_impulse (compat_ptr arg) = Some params
        /\ ~ reserved_op (si_op params)
        /\ (si_buf params = 0 -> si_len params = 0)
        /\ channel_compat_ioctl c cmd arg svc
           = servicefs_msg_send_impulse c (si_op params)
               (compat_ptr (si_buf params)) (si_len params) svc).
Proof.
  unfold channel_compat_ioctl.
  destruct (negb (_IOC_TYPE cmd =? servicefs_ioc_type));
    [left; split; reflexivity | ].
  destruct (_IOC_NR cmd >? SERVICEFS_IOCTL_MAX_NR);
    [left; split; reflexivity | ].
  destruct (cmd =? SERVICEFS_COMPAT_MSG_SENDV).
  - destruct (copy_compat_msg_sendv (compat_ptr arg)) as [params |]
      eqn:Hcopy; [ | left; split; reflexivity].
    simpl.
    destruct (_ || _) eqn:Hvalid; [left; split; reflexivity | ].
    apply orb_false_iff in Hvalid. destruct Hvalid as [Hvalid Hfds].
    apply orb_false_iff in Hvalid. destruct Hvalid as [Hvalid Hrvec].
    apply orb_false_iff in Hvalid. destruct Hvalid as [Hvalid Hsvec].
    apply orb_false_iff in Hvalid. destruct Hvalid as [Hopen Hclose].
    pose proof (compat_sendv_svec_outcome params) as Hs.
    pose proof (compat_sendv_rvec_outcome params) as Hr.
    pose proof (compat_sendv_fds_outcome params) as Hf.
    destruct (compat_sendv_svec params) as [ret | svec];
      [left; split; [exact Hs | reflexivity] | ].
    destruct (compat_sendv_rvec params) as [ret | rvec];
      [left; split; [exact Hr | reflexivity] | ].
    destruct (compat_sendv_fds params) as [ret | fds];
      [left; split; [exact Hf | reflexivity] | ].
    right. left. exists params, svec, rvec, fds. simpl.
    split; [reflexivity | ].
    split; [exact (not_reserved _ Hopen Hclose) | ].
    split; [intros ->; exact (null_or_no_count _ _ Hsvec Hs) | ].
    split; [intros ->; exact (null_or_no_count _ _ Hrvec Hr) | ].
    split; [ | reflexivity].
    destruct fds; [exact (proj2 Hf) | exact (null_or_no_count _ _ Hfds Hf)].
  - destruct (cmd =? SERVICEFS_COMPAT_MSG_SEND_IMPULSE);
      [ | left; split; reflexivity].
    destruct (copy_compat_msg_send_impulse (compat_ptr arg))
      as [params |] eqn:Hcopy; [ | left; split; reflexivity].
    simpl.
    destruct (_ || _) eqn:Hvalid; [left; split; reflexivity | ].
    apply orb_false_iff in Hvalid. destruct Hvalid as [Hvalid Hbuf].
    apply orb_false_iff in Hvalid. destruct Hvalid as [Hopen Hclose].
    right. right. exists params. simpl.
    split; [reflexivity | ].
    split; [exact (not_reserved _ Hopen Hclose) | ].
    split; [ | reflexivity].
    intros Hnull. apply (null_or_no_count _ _ Hbuf).
    apply truthy_false. exact Hnull.
Qed.

End CompatClientOutcomes.

(** ** Further results on the service dispatcher *)

Lemma land_bit (x : Z) (n : Z) :
  0 <= n -> truthy (Z.land x (Z.shiftl 1 n)) = Z.testbit x n.
Proof.
  intros Hn. rewrite Z.shiftl_1_l.
  destruct (Z.testbit x n) eqn:Hbit.
  - apply truthy_true. intros Hzero.
    assert (Hb : Z.testbit (Z.land x (2 ^ n)) n = true).
    { rewrite Z.land_spec, Hbit, Z.pow2_bits_true by exact Hn. reflexivity. }
    rewrite Hzero, Z.bits_0 in Hb. discriminate.
  - apply truthy_false. apply Z.bits_inj'. intros m Hm.
    rewrite Z.land_spec, Z.bits_0.
    destruct (Z.eq_dec n m) as [<- | Hne].
    + rewrite Hbit. reflexivity.
    + rewrite Z.pow2_bits_false by exact Hne. apply andb_false_r.
Qed.

Lemma to_int_mod (z : Z) : to_int (z mod 2 ^ 32) = to_int z.
Proof.
  unfold to_int. rewrite Zplus_mod_idemp_l. reflexivity.
Qed.

Lemma to_int_period (z k : Z) : to_int (z + k * 2 ^ 32) = to_int z.
Proof.
  unfold to_int.
  replace (z + k * 2 ^ 32 + 2 ^ 31) with (z + 2 ^ 31 + k * 2 ^ 32) by ring.
  rewrite Z_mod_plus_full. reflexivity.
Qed.

Section ServiceDispatch.

Context {numbers : IoctlNumbers} {ops : OpCodes} {env : Environment}.
Context {service_api : ServiceApi} {client_api : ClientApi}
        {lifecycle_api : LifecycleApi}.

Lemma service_command_head (cmd : Z) :
  service_commands_wf ->
  In cmd service_commands ->
  negb (_IOC_TYPE cmd =? servicefs_ioc_type) = false
  /\ (_IOC_NR cmd >? SERVICEFS_IOCTL_MAX_NR) = false.
Proof.
  intros [Hcmd _] Hin. apply servicefs_command_head.
  rewrite Forall_forall in Hcmd. apply Hcmd. exact Hin.
Qed.

Lemma channel_command_head (cmd : Z) :
  channel_commands_wf ->
  In cmd channel_commands ->
  negb (_IOC_TYPE cmd =? servicefs_ioc_type) = false
  /\ (_IOC_NR cmd >? SERVICEFS_IOCTL_MAX_NR) = false.
Proof.
  intros [Hcmd _] Hin. apply servicefs_command_head.
  rewrite Forall_forall in Hcmd. apply Hcmd. exact Hin.
Qed.

Lemma service_ioctl_fault (filp : file) (cmd arg : Z) (svc : service) :
  service_commands_wf ->
  user_fault arg ->
  In cmd service_request_commands ->
  service_ioctl filp cmd arg svc = (- EFAULT, svc).
Proof.
  intros Hwf Hfault Hin.
  assert (Hhead : In cmd service_commands).
  { simpl in Hin. simpl. tauto. }
  destruct (service_command_head cmd Hwf Hhead) as [Ht Hn].
  destruct Hwf as [_ Hnd]. unfold service_commands in Hnd. split_nodup Hnd.
  destruct Hfault as (F1 & F2 & F3 & F4 & F5 & F6 & F7 & F8 & F9 & F10 & _).
  unfold service_ioctl. rewrite Ht, Hn. cbv iota.
  simpl in Hin.
  repeat (destruct Hin as [<- | Hin]; [case_tests;
    rewrite ?F1, ?F2, ?F3, ?F4, ?F5, ?F6, ?F7, ?F8, ?F9, ?F10; reflexivity | ]).
  contradiction.
Qed.

Lemma channel_ioctl_fault (c : channel_ptr) (cmd arg : Z) (svc : service) :
  channel_commands_wf ->
  user_fault arg ->
  In cmd channel_commands ->
  channel_ioctl c cmd arg svc = (- EFAULT, svc).
Proof.
  intros Hwf Hfault Hin.
  destruct (channel_command_head cmd Hwf Hin) as [Ht Hn].
  destruct Hwf as [_ Hnd]. unfold channel_commands in Hnd. split_nodup Hnd.
  destruct Hfault as (_ & _ & _ & _ & _ & _ & _ & _ & _ & _ & F11 & F12).
  unfold channel_ioctl. rewrite Ht, Hn. cbv iota.
  simpl in Hin.
  repeat (destruct Hin as [<- | Hin]; [case_tests;
    rewrite ?F11, ?F12; reflexivity | ]).
  contradiction.
Qed.

(** X3.  When no request can be read at the address that the ioctl
    argument gives, every service command and every channel command that
    takes a request structure fails with [-EFAULT]; no handler runs and
    the service is left as it was. *)
Theorem ioctl_fault (filp : file) (c : channel_ptr) (cmd arg : Z)
    (svc : service) :
  service_commands_wf ->
  channel_commands_wf ->
  user_fault arg ->
  (In cmd service_request_commands ->
   service_ioctl filp cmd arg svc = (- EFAULT, svc))
  /\ (In cmd channel_commands ->
      channel_ioctl c cmd arg svc = (- EFAULT, svc)).
Proof.
  intros Hs Hc Hfault. split.
  - apply service_ioctl_fault; assumption.
  - apply channel_ioctl_fault; assumption.
Qed.

(** The read-vector and write-vector cases once the request is read. *)
Lemma service_ioctl_readv (filp : file) (arg : Z) (svc : service)
    (params : servicefs_msg_rwvec_struct) :
  service_commands_wf ->
  copy_msg_rwvec arg = Some params ->
  service_ioctl filp SERVICEFS_MSG_READV arg svc
  = finish svc
      (vec <- checked_uvector WRITE (rwv_vec params) (rwv_len params) ;;
       inr (ret_int (servicefs_msg_readv (rwv_msgid params) vec
                       (rwv_len params) svc))).
Proof.
  intros Hwf Hcopy.
  destruct (service_command_head SERVICEFS_MSG_READV Hwf) as [Ht Hn];
    [simpl; tauto | ].
  destruct Hwf as [_ Hnd]. unfold service_commands in Hnd. split_nodup Hnd.
  unfold service_ioctl. rewrite Ht, Hn. cbv iota. case_tests.
  rewrite Hcopy. reflexivity.
Qed.

Lemma service_ioctl_writev (filp : file) (arg : Z) (svc : service)
    (params : servicefs_msg_rwvec_struct) :
  service_commands_wf ->
  copy_msg_rwvec arg = Some params ->
  service_ioctl filp SERVICEFS_MSG_WRITEV arg svc
  = finish svc
      (vec <- checked_uvector READ (rwv_vec params) (rwv_len params) ;;
       inr (ret_int (servicefs_msg_writev (rwv_msgid params) vec
                       (rwv_len params) svc))).
Proof.
  intros Hwf Hcopy.
  destruct (service_command_head SERVICEFS_MSG_WRITEV Hwf) as [Ht Hn];
    [simpl; tauto | ].
  destruct Hwf as [_ Hnd]. unfold service_commands in Hnd. split_nodup Hnd.
  unfold service_ioctl. rewrite Ht, Hn. cbv iota. case_tests.
  rewrite Hcopy. reflexivity.
Qed.

(** X4.  The read-vector and write-vector commands judge the result of
    the vector check as an [int]: when that is negative it is the result
    of the call, the message handler does not run and the service is left
    as it was.  A message is read into a vector checked for writing and
    written from a vector checked for reading. *)
Theorem rwvec_check_failure (filp : file) (arg : Z) (svc : service)
    (params : servicefs_msg_rwvec_struct) :
  service_commands_wf ->
  copy_msg_rwvec arg = Some params ->
  (to_int (fst (rw_copy_check_uvector WRITE (rwv_vec params)
                  (rwv_len params))) < 0 ->
   service_ioctl filp SERVICEFS_MSG_READV arg svc
   = (to_int (fst (rw_copy_check_uvector WRITE (rwv_vec params)
                     (rwv_len params))), svc))
  /\ (to_int (fst (rw_copy_check_uvector READ (rwv_vec params)
                     (rwv_len params))) < 0 ->
      service_ioctl filp SERVICEFS_MSG_WRITEV arg svc
      = (to_int (fst (rw_copy_check_uvector READ (rwv_vec params)
                        (rwv_len params))), svc)).
Proof.
  intros Hwf Hcopy. split; intros Hneg.
  - rewrite (service_ioctl_readv filp arg svc params Hwf Hcopy).
    unfold checked_uvector.
    destruct (rw_copy_check_uvector WRITE _ _) as [r vec]. simpl in *.
    apply Z.ltb_lt in Hneg. rewrite Hneg. reflexivity.
  - rewrite (service_ioctl_writev filp arg svc params Hwf Hcopy).
    unfold checked_uvector.
    destruct (rw_copy_check_uvector READ _ _) as [r vec]. simpl in *.
    apply Z.ltb_lt in Hneg. rewrite Hneg. reflexivity.
Qed.

(** X5.  The receive command waits according to the file: with
    [O_NONBLOCK] (bit 11 of the file flags) the handler gets the timeout
    [0], otherwise [MAX_SCHEDULE_TIMEOUT]; the native entry point passes
    [is_compat = false].  No other bit of the flags matters. *)
Theorem recv_timeout (filp : file) (arg : Z) (svc : service) :
  service_commands_wf ->
  service_ioctl filp SERVICEFS_MSG_RECV arg svc
  = servicefs_msg_recv arg
      (if Z.testbit (f_flags filp) 11 then 0 else MAX_SCHEDULE_TIMEOUT)
      false svc.
Proof.
  intros Hwf.
  destruct (service_command_head SERVICEFS_MSG_RECV Hwf) as [Ht Hn];
    [simpl; tauto | ].
  destruct Hwf as [_ Hnd]. unfold service_commands in Hnd. split_nodup Hnd.
  unfold service_ioctl. rewrite Ht, Hn. cbv iota. case_tests.
  change O_NONBLOCK with (Z.shiftl 1 11).
  rewrite land_bit by lia. simpl.
  destruct (servicefs_msg_recv _ _ _ _). reflexivity.
Qed.

(** X6.  The close-channel command takes the channel id from the ioctl
    argument as an [int]: the handler gets the signed value of the low 32
    bits, so arguments that differ by a multiple of 2^32 close the same
    channel. *)
Theorem close_channel_argument (filp : file) (arg k : Z) (svc : service) :
  service_commands_wf ->
  service_ioctl filp SERVICEFS_CLOSE_CHANNEL arg svc
  = servicefs_close_channel (to_int arg) svc
  /\ int_range (to_int arg)
  /\ service_ioctl filp SERVICEFS_CLOSE_CHANNEL (arg + k * 2 ^ 32) svc
     = service_ioctl filp SERVICEFS_CLOSE_CHANNEL arg svc.
Proof.
  intros Hwf.
  assert (Hcall : forall a,
    service_ioctl filp SERVICEFS_CLOSE_CHANNEL a svc
    = servicefs_close_channel (to_int a) svc).
  { intros a.
    destruct (service_command_head SERVICEFS_CLOSE_CHANNEL Hwf) as [Ht Hn];
      [simpl; tauto | ].
    destruct Hwf as [_ Hnd]. unfold service_commands in Hnd.
    split_nodup Hnd.
    unfold service_ioctl. rewrite Ht, Hn. cbv iota. case_tests.
    simpl. destruct (servicefs_close_channel _ _). reflexivity. }
  split; [apply Hcall | ]. split.
  - unfold int_range, INT_MIN, INT_MAX, to_int.
    pose proof (Z.mod_pos_bound (arg + 2 ^ 31) (2 ^ 32)). lia.
  - rewrite !Hcall, to_int_period. reflexivity.
Qed.

End ServiceDispatch.

(** ** Results on the two calling conventions *)

Section Conventions.

Context {compat_numbers : CompatNumbers} {numbers : IoctlNumbers}
        {ops : OpCodes} {env : Environment} {cenv : CompatEnvironment}.
Context {service_api : ServiceApi} {client_api : ClientApi}
        {lifecycle_api : LifecycleApi}.

Lemma checked_compat_uvector_mirrors (type : Z) (uvec : uptr) (n : Z) :
  mirrors -> checked_compat_uvector type uvec n = checked_uvector type uvec n.
Proof.
  intros M. unfold checked_compat_uvector, checked_uvector.
  rewrite (proj2 (proj2 (proj2 (proj2 (proj2 (proj2 (proj2 (proj2 (proj2
             (proj2 (proj2 (proj2 (proj2 M))))))))))))).
  reflexivity.
Qed.

Lemma compat_sendv_arrays_mirror (params : servicefs_msg_sendv_struct) :
  mirrors ->
  compat_ptr (sv_svec params) = sv_svec params ->
  compat_ptr (sv_rvec params) = sv_rvec params ->
  compat_ptr (sv_fds params) = sv_fds params ->
  compat_sendv_svec params = sendv_svec params
  /\ compat_sendv_rvec params = sendv_rvec params
  /\ compat_sendv_fds params = sendv_fds params.
Proof.
  intros M Hs Hr Hf.
  unfold compat_sendv_svec, compat_sendv_rvec, compat_sendv_fds,
    sendv_svec, sendv_rvec, sendv_fds.
  cbv zeta. rewrite Hs, Hr, Hf, !checked_compat_uvector_mirrors by exact M.
  destruct M as (_ & _ & _ & _ & _ & _ & _ & _ & _ & _ & _ & _ & Mints & _).
  rewrite Mints. repeat split.
Qed.

(** X7.  For a 32-bit caller whose memory holds the request that a native
    caller's memory holds, each channel command of the 32-bit convention
    does exactly what the native command does with the truncated
    argument: same result, same state of the service. *)
Theorem channel_compat_agrees (c : channel_ptr) (ccmd cmd arg : Z)
    (svc : service) :
  channel_commands_wf ->
  channel_compat_commands_wf ->
  mirrors ->
  pointers_32bit ->
  In (ccmd, cmd) (combine channel_compat_commands channel_commands) ->
  channel_compat_ioctl c ccmd arg svc
  = channel_ioctl c cmd (compat_ptr arg) svc.
Proof.
  intros Hwf Hcwf M P Hin.
  destruct (channel_command_head cmd Hwf (in_combine_r _ _ _ _ Hin))
    as [Ht Hn].
  assert (Hchead : servicefs_command ccmd).
  { destruct Hcwf as [Hall _]. rewrite Forall_forall in Hall.
    apply Hall. exact (in_combine_l _ _ _ _ Hin). }
  apply servicefs_command_head in Hchead. destruct Hchead as [Hct Hcn].
  destruct Hwf as [_ Hnd]. unfold channel_commands in Hnd. split_nodup Hnd.
  destruct Hcwf as [_ Hcnd]. unfold channel_compat_commands in Hcnd.
  split_nodup Hcnd.
  pose proof M as
    (_ & _ & _ & _ & _ & _ & _ & _ & _ & _ & Msendv & Mimpulse & _).
  destruct P as (_ & _ & _ & _ & Psendv & Pimpulse).
  unfold channel_compat_ioctl, channel_ioctl.
  rewrite Ht, Hn, Hct, Hcn. cbv iota zeta.
  simpl in Hin. destruct Hin as [[= <- <-] | [[= <- <-] | []]]; case_tests.
  - rewrite <- Msendv.
    destruct (copy_compat_msg_sendv (compat_ptr arg)) as [params |]
      eqn:Hcopy; [ | reflexivity].
    cbn [step_bind or_fault].
    destruct (Psendv _ _ Hcopy) as (Hs & Hr & Hf).
    destruct (compat_sendv_arrays_mirror params M Hs Hr Hf)
      as (-> & -> & ->).
    reflexivity.
  - rewrite <- Mimpulse.
    destruct (copy_compat_msg_send_impulse (compat_ptr arg)) as [params |]
      eqn:Hcopy; [ | reflexivity].
    simpl. rewrite (Pimpulse _ _ Hcopy). reflexivity.
Qed.

(** X8.  For a 32-bit caller whose memory holds the request that a native
    caller's memory holds, each service command of the 32-bit convention
    whose handler is not told the calling convention does exactly what
    the native command does with the truncated argument: same result,
    same state of the service.  (Receive, push-channel and check-channel
    pass [is_compat] to their handlers.) *)
Theorem service_compat_agrees (filp : file) (ccmd cmd arg : Z)
    (svc : service) :
  service_commands_wf ->
  service_compat_commands_wf ->
  mirrors ->
  pointers_32bit ->
  In (ccmd, cmd) (combine service_compat_commands service_commands) ->
  ~ In cmd convention_commands ->
  service_compat_ioctl filp ccmd arg svc
  = service_ioctl filp cmd (compat_ptr arg) svc.
Proof.
  intros Hwf Hcwf M P Hin Hconv.
  destruct (service_command_head cmd Hwf (in_combine_r _ _ _ _ Hin))
    as [Ht Hn].
  assert (Hchead : servicefs_command ccmd).
  { destruct Hcwf as [Hall _]. rewrite Forall_forall in Hall.
    apply Hall. exact (in_combine_l _ _ _ _ Hin). }
  apply servicefs_command_head in Hchead. destruct Hchead as [Hct Hcn].
  destruct Hwf as [_ Hnd]. unfold service_commands in Hnd. split_nodup Hnd.
  destruct Hcwf as [_ Hcnd]. unfold service_compat_commands in Hcnd.
  split_nodup Hcnd.
  pose proof M as
    (M1 & M2 & M3 & M4 & M5 & M6 & M7 & M8 & M9 & M10 & _).
  destruct P as (P1 & P2 & P3 & P4 & _).
  unfold service_compat_ioctl, service_ioctl.
  rewrite Ht, Hn, Hct, Hcn. cbv iota zeta.
  simpl in Hin, Hconv.
  repeat (destruct Hin as [[= <- <-] | Hin];
    [ first
        [ exfalso; apply Hconv;
          solve [repeat first [left; reflexivity | right]]
        | case_tests; cbv zeta;
          rewrite <- ?M1, <- ?M2, <- ?M3, <- ?M4, <- ?M5, <- ?M6, <- ?M7,
            <- ?M8, <- ?M9, <- ?M10;
          try match goal with
            | |- context [or_fault ?e] =>
                destruct e as [params |] eqn:Hcopy;
                [cbn [step_bind or_fault] | reflexivity]
            end;
          try rewrite (P1 _ _ Hcopy);
          try rewrite (P2 _ _ Hcopy);
          rewrite ?checked_compat_uvector_mirrors by exact M;
          unfold compat_ptr; rewrite ?to_int_mod; reflexivity ]
    | ]).
  contradiction.
Qed.

End Conventions.

(** The example numbers are well formed. *)
Lemma example_service_commands_wf : @service_commands_wf Example.numbers.
Proof.
  split.
  - repeat constructor; vm_compute; discriminate.
  - repeat constructor; vm_compute; intuition discriminate.
Qed.

Lemma example_channel_commands_wf : @channel_commands_wf Example.numbers.
Proof.
  split.
  - repeat constructor; vm_compute; discriminate.
  - repeat constructor; vm_compute; intuition discriminate.
Qed.

Lemma example_service_compat_commands_wf :
  @service_compat_commands_wf Example32.numbers Example.numbers.
Proof.
  split.
  - repeat constructor; vm_compute; discriminate.
  - repeat constructor; vm_compute; intuition discriminate.
Qed.

Lemma example_channel_compat_commands_wf :
  @channel_compat_commands_wf Example32.numbers Example.numbers.
Proof.
  split.
  - repeat constructor; vm_compute; discriminate.
  - repeat constructor; vm_compute; intuition discriminate.
Qed.

Lemma example_mirrors (env : Environment) :
  @mirrors (Example32.cenv_of env) env.
Proof.
  repeat split.
Qed.

Lemma ioctl_fault_witness :
  @service_ioctl Example.numbers
    (Example.env Example.spoofed_sendv Example.spoofed_impulse)
    Example.service_handlers (SpecModel.lifecycle Example.no_cancel)
    Example.service_file (@SERVICEFS_MSG_REPLY Example.numbers) 0
    Example.open_service
  = (- EFAULT, Example.open_service)
  /\ @channel_ioctl Example.numbers Example.ops
       (Example.env Example.spoofed_sendv Example.spoofed_impulse)
       Example.client 0 (@SERVICEFS_MSG_SENDV Example.numbers) 0
       Example.service_with_channel
     = (- EFAULT, Example.service_with_channel).
Proof.
  assert (Hfault :
    @user_fault (Example.env Example.spoofed_sendv Example.spoofed_impulse) 0)
    by (repeat split).
  split.
  - apply (proj1
      (@ioctl_fault Example.numbers Example.ops
         (Example.env Example.spoofed_sendv Example.spoofed_impulse)
         Example.service_handlers Example.client
         (SpecModel.lifecycle Example.no_cancel)
         Example.service_file 0 (@SERVICEFS_MSG_REPLY Example.numbers) 0
         Example.open_service
         example_service_commands_wf example_channel_commands_wf Hfault)).
    simpl. tauto.
  - apply (proj2
      (@ioctl_fault Example.numbers Example.ops
         (Example.env Example.spoofed_sendv Example.spoofed_impulse)
         Example.service_handlers Example.client
         (SpecModel.lifecycle Example.no_cancel)
         Example.service_file 0 (@SERVICEFS_MSG_SENDV Example.numbers) 0
         Example.service_with_channel
         example_service_commands_wf example_channel_commands_wf Hfault)).
    simpl. tauto.
Defined.

(** A read-vector call whose vector check fails with [-EFAULT]. *)
Lemma rwvec_check_failure_witness :
  @service_ioctl Example.numbers
    (Example32.env_rwvec (mk_msg_rwvec 0 8192 1) (- EFAULT, []))
    Example.service_handlers (SpecModel.lifecycle Example.no_cancel)
    Example.service_file (@SERVICEFS_MSG_READV Example.numbers) 4096
    Example.open_service
  = (- EFAULT, Example.open_service).
Proof.
  apply (proj1
    (@rwvec_check_failure Example.numbers
       (Example32.env_rwvec (mk_msg_rwvec 0 8192 1) (- EFAULT, []))
       Example.service_handlers (SpecModel.lifecycle Example.no_cancel)
       Example.service_file 4096 Example.open_service
       (mk_msg_rwvec 0 8192 1) example_service_commands_wf eq_refl)).
  reflexivity.
Defined.

(** The handler of the example records the timeout it is given: [0] for
    a file with [O_NONBLOCK], [MAX_SCHEDULE_TIMEOUT] for the blocking
    service file. *)
Lemma recv_timeout_witness :
  @service_ioctl Example.numbers
    (Example.env Example.spoofed_sendv Example.spoofed_impulse)
    Example32.recording_handlers (SpecModel.lifecycle Example.no_cancel)
    (mk_file 256 priv_service service_file_operations O_NONBLOCK)
    (@SERVICEFS_MSG_RECV Example.numbers) 0
    (mk_service 1 0 0 [] [] [] [] SERVICE_FLAGS_DEFAULT 7 (Some 256))
  = (0, mk_service 1 0 0 [] [] [] [] SERVICE_FLAGS_DEFAULT 0 (Some 256))
  /\ @service_ioctl Example.numbers
       (Example.env Example.spoofed_sendv Example.spoofed_impulse)
       Example32.recording_handlers (SpecModel.lifecycle Example.no_cancel)
       Example.service_file
       (@SERVICEFS_MSG_RECV Example.numbers) 0
       (mk_service 1 0 0 [] [] [] [] SERVICE_FLAGS_DEFAULT 7 (Some 256))
     = (0,
        mk_service 1 0 0 [] [] [] [] SERVICE_FLAGS_DEFAULT
          MAX_SCHEDULE_TIMEOUT (Some 256)).
Proof.
  split.
  - apply (@recv_timeout Example.numbers
             (Example.env Example.spoofed_sendv Example.spoofed_impulse)
             Example32.recording_handlers
             (SpecModel.lifecycle Example.no_cancel)
             (mk_file 256 priv_service service_file_operations O_NONBLOCK)
             0 (mk_service 1 0 0 [] [] [] [] SERVICE_FLAGS_DEFAULT 7
                  (Some 256))
             example_service_commands_wf).
  - apply (@recv_timeout Example.numbers
             (Example.env Example.spoofed_sendv Example.spoofed_impulse)
             Example32.recording_handlers
             (SpecModel.lifecycle Example.no_cancel)
             Example.service_file
             0 (mk_service 1 0 0 [] [] [] [] SERVICE_FLAGS_DEFAULT 7
                  (Some 256))
             example_service_commands_wf).
Defined.

(** The argument 2^32 + 5 closes channel 5. *)
Lemma close_channel_argument_witness :
  @service_ioctl Example.numbers
    (Example.env Example.spoofed_sendv Example.spoofed_impulse)
    Example32.recording_handlers (SpecModel.lifecycle Example.no_cancel)
    Example.service_file (@SERVICEFS_CLOSE_CHANNEL Example.numbers)
    (5 + 1 * 2 ^ 32) Example.open_service
  = @service_ioctl Example.numbers
      (Example.env Example.spoofed_sendv Example.spoofed_impulse)
      Example32.recording_handlers (SpecModel.lifecycle Example.no_cancel)
      Example.service_file (@SERVICEFS_CLOSE_CHANNEL Example.numbers)
      5 Example.open_service.
Proof.
  apply (proj2 (proj2
    (@close_channel_argument Example.numbers
       (Example.env Example.spoofed_sendv Example.spoofed_impulse)
       Example32.recording_handlers (SpecModel.lifecycle Example.no_cancel)
       Example.service_file 5 1 Example.open_service
       example_service_commands_wf))).
Defined.

Lemma example_read_pointers :
  @pointers_32bit (Example32.cenv_of Example32.env_read).
Proof.
  unfold pointers_32bit. simpl.
  repeat match goal with |- _ /\ _ => split end;
    intros p r; destruct (p =? 4096); intros Hcopy;
    try discriminate Hcopy; injection Hcopy as <-; repeat split.
Qed.

Lemma example_rwvec_pointers :
  @pointers_32bit
    (Example32.cenv_of
       (Example32.env_rwvec (mk_msg_rwvec 0 8192 1) (16, [mk_iov 8192 16]))).
Proof.
  unfold pointers_32bit. simpl.
  repeat match goal with |- _ /\ _ => split end;
    intros p r; destruct (p =? 4096); intros Hcopy;
    try discriminate Hcopy; injection Hcopy as <-; repeat split.
Qed.

(** The read request of the example through both conventions. *)
Lemma channel_compat_agrees_witness :
  @channel_compat_ioctl Example32.numbers Example.numbers Example.ops
    Example32.env_read (Example32.cenv_of Example32.env_read) Example.client
    0 (@SERVICEFS_COMPAT_MSG_SENDV Example32.numbers) 4096
    Example.service_with_channel
  = @channel_ioctl Example.numbers Example.ops Example32.env_read
      Example.client 0 (@SERVICEFS_MSG_SENDV Example.numbers)
      (compat_ptr 4096) Example.service_with_channel.
Proof.
  apply (@channel_compat_agrees Example32.numbers Example.numbers
           Example.ops Example32.env_read
           (Example32.cenv_of Example32.env_read) Example.client
           0 _ _ 4096 Example.service_with_channel
           example_channel_commands_wf example_channel_compat_commands_wf
           (example_mirrors _) example_read_pointers).
  simpl. tauto.
Defined.

Lemma service_compat_agrees_witness :
  @service_compat_ioctl Example32.numbers Example.numbers
    (Example32.cenv_of
       (Example32.env_rwvec (mk_msg_rwvec 0 8192 1) (16, [mk_iov 8192 16])))
    Example.service_handlers (SpecModel.lifecycle Example.no_cancel)
    Example.service_file (@SERVICEFS_COMPAT_MSG_READV Example32.numbers)
    4096 Example.open_service
  = @service_ioctl Example.numbers
      (Example32.env_rwvec (mk_msg_rwvec 0 8192 1) (16, [mk_iov 8192 16]))
      Example.service_handlers (SpecModel.lifecycle Example.no_cancel)
      Example.service_file (@SERVICEFS_MSG_READV Example.numbers)
      (compat_ptr 4096) Example.open_service.
Proof.
  apply (@service_compat_agrees Example32.numbers Example.numbers
           (Example32.env_rwvec (mk_msg_rwvec 0 8192 1)
              (16, [mk_iov 8192 16]))
           (Example32.cenv_of
              (Example32.env_rwvec (mk_msg_rwvec 0 8192 1)
                 (16, [mk_iov 8192 16])))
           Example.service_handlers (SpecModel.lifecycle Example.no_cancel)
           Example.service_file _ _ 4096 Example.open_service
           example_service_commands_wf example_service_compat_commands_wf
           (example_mirrors _) example_rwvec_pointers).
  - simpl. tauto.
  - vm_compute. intuition discriminate.
Defined.

(** ** Further results on the client file operations *)

Section ReadWrite.

Context {numbers : IoctlNumbers} {ops : OpCodes} {env : Environment}.
Context {client_api : ClientApi}.

(** The send-transaction case of [channel_ioctl] for a request with one
    vector and no handles. *)
Lemma channel_ioctl_sendv_accepted (c : channel_ptr) (arg : uptr)
    (svc : service) (params : servicefs_msg_sendv_struct)
    (svec rvec : option (list iov)) (fds : option (list Z)) :
  channel_commands_wf ->
  copy_msg_sendv arg = Some params ->
  ~ reserved_op (sv_op params) ->
  (sv_svec params = 0 -> sv_scnt params = 0) ->
  (sv_rvec params = 0 -> sv_rcnt params = 0) ->
  (sv_fds params = 0 -> sv_fdcnt params = 0) ->
  sendv_svec params = inr svec ->
  sendv_rvec params = inr rvec ->
  sendv_fds params = inr fds ->
  channel_ioctl c SERVICEFS_MSG_SENDV arg svc
  = ret_int (servicefs_msg_sendv_interruptible c (sv_op params) svec
               (sv_scnt params) rvec (sv_rcnt params) fds (sv_fdcnt params)
               svc).
Proof.
  intros [Hcmd _] Hcopy Hop Hs Hr Hf Hsvec Hrvec Hfds.
  apply Forall_inv in Hcmd. apply servicefs_command_head in Hcmd.
  destruct Hcmd as [Ht Hn].
  unfold channel_ioctl. rewrite Ht, Hn, Z.eqb_refl, Hcopy. simpl.
  unfold reserved_op in Hop.
  destruct (Z.eqb_spec (sv_op params) SERVICEFS_OP_UNIX_OPEN)
    as [Ho | _]; [tauto | ].
  destruct (Z.eqb_spec (sv_op params) SERVICEFS_OP_UNIX_CLOSE)
    as [Hc | _]; [tauto | ].
  assert (Hpair : forall p k, (p = 0 -> k = 0) ->
                    negb (truthy p) && truthy k = false).
  { intros p k Hpn. unfold truthy.
    destruct (Z.eqb_spec p 0) as [Hz | _]; simpl; [ | reflexivity].
    rewrite (Hpn Hz). reflexivity. }
  rewrite (Hpair _ _ Hs), (Hpair _ _ Hr), (Hpair _ _ Hf). simpl.
  rewrite Hsvec, Hrvec, Hfds. reflexivity.
Qed.

(** X9.  The read and write file operations of a channel are
    send-transaction calls: [channel_read] does what the send-transaction
    ioctl does for the operation [SERVICEFS_OP_UNIX_READ] with the buffer
    as the only receive vector, and [channel_write] what it does for
    [SERVICEFS_OP_UNIX_WRITE] with the buffer as the only send vector;
    the ioctl returns the result as an [int]. *)
Theorem read_write_are_transactions (c : channel_ptr) (arg vec buf len r : Z)
    (svc : service) :
  channel_commands_wf ->
  ~ reserved_op SERVICEFS_OP_UNIX_READ ->
  ~ reserved_op SERVICEFS_OP_UNIX_WRITE ->
  vec <> 0 ->
  0 <= to_int r ->
  (copy_msg_sendv arg
   = Some (mk_msg_sendv SERVICEFS_OP_UNIX_READ 0 0 vec 1 0 0) ->
   rw_copy_check_uvector WRITE vec 1 = (r, [mk_iov buf len]) ->
   channel_ioctl c SERVICEFS_MSG_SENDV arg svc
   = ret_int (channel_read c buf len svc))
  /\ (copy_msg_sendv arg
      = Some (mk_msg_sendv SERVICEFS_OP_UNIX_WRITE vec 1 0 0 0 0) ->
      rw_copy_check_uvector READ vec 1 = (r, [mk_iov buf len]) ->
      channel_ioctl c SERVICEFS_MSG_SENDV arg svc
      = ret_int (channel_write c buf len svc)).
Proof.
  intros Hwf Hread Hwrite Hvec Hr.
  assert (Htruthy : truthy vec = true) by (apply truthy_true; exact Hvec).
  assert (Hpos : (to_int r <? 0) = false) by (apply Z.ltb_ge; exact Hr).
  split; intros Hcopy Hcheck.
  - unfold channel_read.
    apply (channel_ioctl_sendv_accepted c arg svc _ None
             (Some [mk_iov buf len]) None Hwf Hcopy); simpl; trivial.
    + intros Hz. contradiction.
    + unfold sendv_rvec, checked_uvector. simpl.
      rewrite Htruthy, Hcheck, Hpos. reflexivity.
  - unfold channel_write.
    apply (channel_ioctl_sendv_accepted c arg svc _
             (Some [mk_iov buf len]) None None Hwf Hcopy); simpl; trivial.
    + intros Hz. contradiction.
    + unfold sendv_svec, checked_uvector. simpl.
      rewrite Htruthy, Hcheck, Hpos. reflexivity.
Qed.

Lemma to_int_mod_unsigned (z : Z) : to_int z mod 2 ^ 32 = z mod 2 ^ 32.
Proof.
  unfold to_int.
  rewrite <- (Zminus_mod_idemp_l ((z + 2 ^ 31) mod 2 ^ 32)).
  rewrite Z.mod_mod by lia.
  rewrite Zminus_mod_idemp_l.
  f_equal. ring.
Qed.

(** X10.  The poll of a channel reports the low 32 bits of the event mask
    of the channel: the result is an [unsigned int], and a mask that fits
    in 32 bits is reported as it is. *)
Theorem channel_poll_mask (c : channel) :
  channel_poll c = c_events c mod 2 ^ 32
  /\ 0 <= channel_poll c < 2 ^ 32
  /\ (0 <= c_events c < 2 ^ 32 -> channel_poll c = c_events c).
Proof.
  unfold channel_poll. cbv zeta. rewrite to_int_mod_unsigned.
  split; [reflexivity | ]. split.
  - apply Z.mod_pos_bound. lia.
  - intros Hfit. apply Z.mod_small. exact Hfit.
Qed.

End ReadWrite.

(** ** Further results on open and release *)

Section Roles.

Context {ops : OpCodes} {env : Environment} {client_api : ClientApi}
        {lifecycle_api : LifecycleApi}.

(** X11.  [create_channel_open] stops in [BUG_ON] exactly when the
    reference count after the increment is below one: when the count was
    negative, or was [INT_MAX] and wrapped around. *)
Theorem create_channel_open_bug (ino : inode) (filp : file)
    (svc : service) :
  i_private ino = Some svc ->
  int_range (s_count svc) ->
  (create_channel_open ino filp = KBug
   <-> s_count svc < 0 \/ s_count svc = INT_MAX).
Proof.
  intros Hsvc Hr. unfold create_channel_open, atomic_add_return.
  rewrite Hsvc. unfold int_range, INT_MIN, INT_MAX in *.
  destruct (Z.eq_dec (s_count svc) (2 ^ 31 - 1)) as [Hmax | Hnmax].
  - rewrite Hmax. split; [intros _; right; reflexivity | reflexivity].
  - rewrite to_int_id by (unfold int_range, INT_MIN, INT_MAX; lia).
    destruct (Z.ltb_spec (s_count svc + 1) 1) as [Hlow | Hok].
    + split; [intros _; left; lia | reflexivity].
    + split; [ | lia].
      destruct (get_new_channel _) as [[c |] svc1]; discriminate.
Qed.

(** X12.  After [initial_open] of a fresh file the two lookups tell the
    role of the file: [servicefs_get_service_from_file] yields the service
    exactly for the file with the service operations,
    [servicefs_get_channel_from_file] yields a channel exactly for a file
    with the channel operations, and no file answers both. *)
Theorem open_then_lookup (ino ino' : inode) (filp filp' : file) (ret : Z) :
  f_op filp = initial_file_operations ->
  initial_open ino filp = (ret, ino', filp') ->
  (servicefs_get_service_from_file filp' = priv_service
   <-> f_op filp' = service_file_operations)
  /\ ((exists c, servicefs_get_channel_from_file filp' = priv_channel c)
      <-> f_op filp' = channel_file_operations)
  /\ (servicefs_get_service_from_file filp' = priv_null
      \/ servicefs_get_channel_from_file filp' = priv_null).
Proof.
  intros Hinit. unfold initial_open.
  assert (Hsame : filp' = filp ->
    (servicefs_get_service_from_file filp' = priv_service
     <-> f_op filp' = service_file_operations)
    /\ ((exists c, servicefs_get_channel_from_file filp' = priv_channel c)
        <-> f_op filp' = channel_file_operations)
    /\ (servicefs_get_service_from_file filp' = priv_null
        \/ servicefs_get_channel_from_file filp' = priv_null)).
  { intros ->.
    unfold servicefs_get_service_from_file, servicefs_get_channel_from_file.
    rewrite Hinit. simpl. split; [split; discriminate | ].
    split; [split; [intros [c Hc]; discriminate | discriminate] | ].
    left. reflexivity. }
  assert (Hchannel : forall c,
    filp' = mk_file (f_addr filp) (priv_channel c) channel_file_operations
              (f_flags filp) ->
    (servicefs_get_service_from_file filp' = priv_service
     <-> f_op filp' = service_file_operations)
    /\ ((exists c, servicefs_get_channel_from_file filp' = priv_channel c)
        <-> f_op filp' = channel_file_operations)
    /\ (servicefs_get_service_from_file filp' = priv_null
        \/ servicefs_get_channel_from_file filp' = priv_null)).
  { intros c ->.
    unfold servicefs_get_service_from_file, servicefs_get_channel_from_file.
    simpl. split; [split; discriminate | ].
    split; [split; [reflexivity | intros _; exists c; reflexivity] | ].
    left. reflexivity. }
  destruct (i_private ino) as [svc |].
  - destruct (atomic_add_return 1 svc) as [count svc0].
    destruct (count =? 1).
    + intros [= _ _ <-].
      unfold servicefs_get_service_from_file,
        servicefs_get_channel_from_file.
      simpl. split; [split; reflexivity | ].
      split; [split; [intros [c Hc]; discriminate | discriminate] | ].
      right. reflexivity.
    + destruct (get_new_channel svc0) as [[c |] svc1].
      * destruct (truthy _).
        -- destruct (servicefs_msg_sendv_uninterruptible _ _ _ _ _ _ _ _ _).
           intros [= _ _ <-]. apply (Hchannel c). reflexivity.
        -- intros [= _ _ <-]. apply (Hchannel c). reflexivity.
      * intros [= _ _ <-]. apply Hsame. reflexivity.
  - intros [= _ _ <-]. apply Hsame. reflexivity.
Qed.

(** X13.  The file of a channel that the service creates for itself does
    not count as a channel until its setup is completed:
    [servicefs_get_channel_from_file] yields [NULL] for the file that
    [servicefs_create_channel] returns and the channel after
    [servicefs_complete_channel_setup]; completing the setup a second
    time stops in [BUG_ON]. *)
Theorem channel_setup_completes (ino ino' : inode) (svc_file file : file)
    (flags : Z) :
  servicefs_create_channel ino svc_file flags = KReturn (inr file, ino') ->
  servicefs_get_channel_from_file file = priv_null
  /\ exists c file',
       private_data file = priv_channel c
       /\ servicefs_complete_channel_setup file = KReturn file'
       /\ servicefs_get_channel_from_file file' = priv_channel c
       /\ servicefs_get_service_from_file file' = priv_null
       /\ servicefs_complete_channel_setup file' = KBug.
Proof.
  unfold servicefs_create_channel, create_channel_open.
  destruct alloc_file as [err | addr]; [discriminate | ].
  destruct (i_private ino) as [svc |]; [ | simpl; discriminate].
  destruct (atomic_add_return 1 svc) as [count svc0].
  destruct (count <? 1); [simpl; discriminate | ].
  destruct (get_new_channel svc0) as [[c |] svc1]; simpl; [ | discriminate].
  intros [= <- _]. split; [reflexivity | ].
  exists c. eexists. repeat split.
Qed.

(** X14.  A later open on a service that is not configured for open
    notification, and the first open whatever the configuration, send
    nothing: the open returns [0] and the service is in the state that
    the count and [get_new_channel], resp. the count and the file
    pointer, left. *)
Theorem open_without_notification (ino : inode) (filp : file)
    (svc : service) :
  i_private ino = Some svc ->
  (first_open svc ->
   initial_open ino filp
   = (0,
      mk_inode (Some (set_s_filp (snd (atomic_add_return 1 svc))
                        (Some (f_addr filp)))),
      mk_file (f_addr filp) priv_service service_file_operations
        (f_flags filp)))
  /\ (~ first_open svc ->
      forall c svc1,
        get_new_channel (snd (atomic_add_return 1 svc)) = (Some c, svc1) ->
        ~ open_notify svc1 ->
        initial_open ino filp
        = (0, mk_inode (Some svc1),
           mk_file (f_addr filp) (priv_channel c) channel_file_operations
             (f_flags filp))).
Proof.
  intros Hsvc. split.
  - apply initial_open_first. exact Hsvc.
  - intros Hlater c svc1 Hnew Hquiet.
    rewrite (initial_open_channel ino filp svc svc1 c Hsvc Hlater Hnew).
    simpl. destruct (truthy _) eqn:Ht; [ | reflexivity].
    apply truthy_true in Ht. contradiction.
Qed.

(** X15.  On the release of a channel of a service configured for close
    notification, the notification is sent before the channel is
    removed: [servicefs_msg_sendv] runs for the channel with
    [SERVICEFS_OP_UNIX_CLOSE], no vectors, no handles and
    [TASK_UNINTERRUPTIBLE] on the service with the decremented count, and
    [remove_channel] runs on the state that the send left; the result of
    the send is dropped. *)
Theorem close_notification_before_removal (ino : inode) (c : channel_ptr)
    (svc : service) :
  i_private ino = Some svc ->
  close_notify svc ->
  channel_release ino c
  = (0,
     mk_inode
       (Some (remove_channel c
                (snd (servicefs_msg_sendv c SERVICEFS_OP_UNIX_CLOSE
                        None 0 None 0 None 0 TASK_UNINTERRUPTIBLE
                        (snd (atomic_add_return (-1) svc))))))).
Proof.
  intros Hsvc Hnotify. unfold channel_release. rewrite Hsvc.
  unfold atomic_add_return. simpl.
  apply truthy_true in Hnotify. rewrite Hnotify. reflexivity.
Qed.

(** The decrement undoes the increment of the reference count, also
    across the wrap-around. *)
Lemma count_round_trip (z : Z) :
  int_range z -> to_int (to_int (z + 1) + -1) = z.
Proof.
  unfold int_range, INT_MIN, INT_MAX. intros Hz.
  destruct (Z.eq_dec z (2 ^ 31 - 1)) as [-> | Hne].
  - reflexivity.
  - rewrite (to_int_id (z + 1))
      by (unfold int_range, INT_MIN, INT_MAX; lia).
    replace (z + 1 + -1) with z by ring.
    apply to_int_id. unfold int_range, INT_MIN, INT_MAX. lia.
Qed.

(** X16.  The reference count is balanced: when the handlers leave the
    count alone, an open of a fresh file followed by the release that
    belongs to the role of the file ([service_release] for the service
    side, [channel_release] for a channel) restores the count of the
    service; an open on which [get_new_channel] fails leaves the count
    incremented. *)
Theorem reference_count_balance (ino ino' : inode) (filp filp' : file)
    (svc : service) (ret : Z) :
  count_neutral ->
  i_private ino = Some svc ->
  int_range (s_count svc) ->
  private_data filp = priv_null ->
  initial_open ino filp = (ret, ino', filp') ->
  match private_data filp' with
  | priv_service =>
      inode_count (snd (service_release ino' filp')) = Some (s_count svc)
  | priv_channel c =>
      inode_count (snd (channel_release ino' c)) = Some (s_count svc)
  | priv_null =>
      ret = - EINVAL /\ inode_count ino' = Some (to_int (s_count svc + 1))
  end.
Proof.
  intros (Nnew & Nremove & Ncancel & Nsend) Hsvc Hr Hfresh Hopen.
  assert (Hchan : forall c svc2,
    s_count svc2 = to_int (s_count svc + 1) ->
    inode_count (snd (channel_release (mk_inode (Some svc2)) c))
    = Some (s_count svc)).
  { intros c svc2 Hcount. unfold channel_release, inode_count,
      atomic_add_return, servicefs_msg_sendv_uninterruptible.
    simpl. rewrite Nremove.
    destruct (truthy _); [rewrite Nsend | ]; simpl;
      rewrite Hcount, count_round_trip by exact Hr; reflexivity. }
  assert (Hserv : forall svc2 f,
    s_count svc2 = to_int (s_count svc + 1) ->
    inode_count (snd (service_release (mk_inode (Some svc2)) f))
    = Some (s_count svc)).
  { intros svc2 f Hcount. unfold service_release, inode_count,
      atomic_add_return.
    simpl.
    pose proof (Ncancel (set_s_count svc2 (to_int (s_count svc2 + -1))))
      as Hkeep.
    destruct (cancel_service _) as [r svc3]. simpl in *.
    rewrite Hkeep, Hcount, count_round_trip by exact Hr. reflexivity. }
  destruct (Z.eq_dec (fst (atomic_add_return 1 svc)) 1) as [Hfirst | Hlater].
  - rewrite (initial_open_first ino filp svc Hsvc Hfirst) in Hopen.
    injection Hopen as <- <- <-. simpl. apply Hserv. reflexivity.
  - pose proof (Nnew (snd (atomic_add_return 1 svc))) as Hnew.
    destruct (get_new_channel (snd (atomic_add_return 1 svc)))
      as [[c |] svc1] eqn:Hchannel; simpl in Hnew.
    + rewrite (initial_open_channel ino filp svc svc1 c Hsvc Hlater Hchannel)
        in Hopen.
      simpl in Hopen.
      destruct (truthy _); injection Hopen as <- <- <-; simpl; apply Hchan.
      * rewrite Nsend. exact Hnew.
      * exact Hnew.
    + rewrite (initial_open_no_channel ino filp svc svc1 Hsvc Hlater Hchannel)
        in Hopen.
      injection Hopen as <- <- <-. rewrite Hfresh.
      split; [reflexivity | ]. unfold inode_count. simpl.
      rewrite Hnew. reflexivity.
Qed.

End Roles.

(** X17.  The three flags of a service are single, independent bits of
    [s_flags]: the service is canceled exactly when bit 0 is set, it is
    configured for open notification exactly when bit 1 is set and for
    close notification exactly when bit 2 is set. *)
Theorem service_flag_bits (svc : service) :
  __is_service_canceled svc = Z.testbit (s_flags svc) 0
  /\ (open_notify svc <-> Z.testbit (s_flags svc) 1 = true)
  /\ (close_notify svc <-> Z.testbit (s_flags svc) 2 = true).
Proof.
  unfold __is_service_canceled, open_notify, close_notify,
    SERVICE_FLAGS_CANCELED, SERVICE_FLAGS_OPEN_NOTIFY,
    SERVICE_FLAGS_CLOSE_NOTIFY.
  split; [apply land_bit; lia | ].
  split; rewrite <- truthy_true, land_bit by lia; reflexivity.
Qed.

Section CreatedFile.

Context {env : Environment} {lifecycle_api : LifecycleApi}.

(** X18.  The file of a channel that the service creates for itself
    takes from the requested flags the bits [O_NONBLOCK] (bit 11) and
    [O_CLOEXEC] (bit 19) and no other bit. *)
Theorem created_file_flags (ino ino' : inode) (svc_file file : file)
    (flags : Z) :
  servicefs_create_channel ino svc_file flags = KReturn (inr file, ino') ->
  forall n, 0 <= n ->
    Z.testbit (f_flags file) n
    = Z.testbit flags n && ((n =? 11) || (n =? 19)).
Proof.
  unfold servicefs_create_channel, create_channel_open.
  destruct alloc_file as [err | addr]; [discriminate | ].
  destruct (i_private ino) as [svc |]; [ | simpl; discriminate].
  destruct (atomic_add_return 1 svc) as [count svc0].
  destruct (count <? 1); [simpl; discriminate | ].
  destruct (get_new_channel svc0) as [[c |] svc1]; simpl; [ | discriminate].
  intros [= <- _] n Hn. cbn [f_flags].
  change 526336 with (Z.lor (2 ^ 11) (2 ^ 19)).
  rewrite Z.land_spec, Z.lor_spec, !Z.pow2_bits_eqb by lia.
  rewrite (Z.eqb_sym 11 n), (Z.eqb_sym 19 n). reflexivity.
Qed.

End CreatedFile.

(** ** The further results on concrete inputs *)

(** The read of 16 bytes of the example through the ioctl. *)
Lemma read_write_are_transactions_witness :
  @channel_ioctl Example.numbers Example.ops Example32.env_read
    Example.client 0 (@SERVICEFS_MSG_SENDV Example.numbers) 4096
    Example.service_with_channel
  = ret_int (@channel_read Example.ops Example.client 0 8192 16
               Example.service_with_channel).
Proof.
  apply (proj1
    (@read_write_are_transactions Example.numbers Example.ops
       Example32.env_read Example.client 0 4096 12288 8192 16 16
       Example.service_with_channel example_channel_commands_wf
       ltac:(vm_compute; intuition discriminate)
       ltac:(vm_compute; intuition discriminate)
       ltac:(discriminate)
       ltac:(vm_compute; discriminate))).
  - reflexivity.
  - reflexivity.
Defined.

(** A service whose reference count is [INT_MAX]. *)
Lemma create_channel_open_bug_witness :
  @create_channel_open (SpecModel.lifecycle Example.no_cancel)
    (mk_inode (Some (set_s_count Example.open_service INT_MAX)))
    (Example.new_file 512)
  = KBug.
Proof.
  apply (proj2
    (@create_channel_open_bug (SpecModel.lifecycle Example.no_cancel)
       (mk_inode (Some (set_s_count Example.open_service INT_MAX)))
       (Example.new_file 512) (set_s_count Example.open_service INT_MAX)
       eq_refl ltac:(vm_compute; split; discriminate))).
  right. reflexivity.
Defined.

(** The file of the first open of the example service. *)
Lemma open_then_lookup_witness :
  servicefs_get_service_from_file
    (mk_file 256 priv_service service_file_operations 0) = priv_service.
Proof.
  apply (proj1
    (@open_then_lookup Example.ops Example.client
       (SpecModel.lifecycle Example.no_cancel)
       (mk_inode (Some Example.new_service))
       (mk_inode (Some Example.open_service))
       (Example.new_file 256)
       (mk_file 256 priv_service service_file_operations 0) 0
       eq_refl eq_refl)).
  reflexivity.
Defined.

(** The channel that the example service creates for itself. *)
Lemma channel_setup_completes_witness :
  servicefs_get_channel_from_file
    (mk_file 512 (priv_channel 0) initial_file_operations O_NONBLOCK)
  = priv_null.
Proof.
  apply (@channel_setup_completes
           (Example.env Example.spoofed_sendv Example.spoofed_impulse)
           (SpecModel.lifecycle Example.no_cancel)
           (mk_inode (Some Example.open_service))
           (mk_inode (Some Example.service_with_channel))
           Example.service_file
           (mk_file 512 (priv_channel 0) initial_file_operations O_NONBLOCK)
           O_NONBLOCK eq_refl).
Defined.

(** The second open of a service with no notification flags. *)
Lemma open_without_notification_witness :
  @initial_open Example.ops Example.failing_client
    (SpecModel.lifecycle Example.no_cancel)
    (mk_inode (Some (mk_service 1 0 0 [] [] [] [] 0 0 (Some 256))))
    (Example.new_file 300)
  = (0,
     mk_inode
       (Some (mk_service 2 0 0 [mk_channel 0 0 0 0] [] [] [] 0 0 (Some 256))),
     mk_file 300 (priv_channel 0) channel_file_operations 0).
Proof.
  apply (proj2
    (@open_without_notification Example.ops Example.failing_client
       (SpecModel.lifecycle Example.no_cancel)
       (mk_inode (Some (mk_service 1 0 0 [] [] [] [] 0 0 (Some 256))))
       (Example.new_file 300)
       (mk_service 1 0 0 [] [] [] [] 0 0 (Some 256)) eq_refl)).
  - vm_compute. discriminate.
  - reflexivity.
  - vm_compute. intros H. apply H. reflexivity.
Defined.

(** The release of channel 0 of the example service: the close
    notification is queued, then the channel is removed. *)
Lemma close_notification_before_removal_witness :
  @channel_release Example.ops Example.client
    (SpecModel.lifecycle Example.no_cancel)
    (mk_inode (Some Example.service_with_channel)) 0
  = (0,
     mk_inode
       (Some (mk_service 1 0 0 [] []
                [SpecModel.new_message 0 Example.sender0 0
                   (@SERVICEFS_OP_UNIX_CLOSE Example.ops) [] [] []]
                [] SERVICE_FLAGS_DEFAULT 0 (Some 256)))).
Proof.
  apply (@close_notification_before_removal Example.ops Example.client
           (SpecModel.lifecycle Example.no_cancel)
           (mk_inode (Some Example.service_with_channel)) 0
           Example.service_with_channel eq_refl).
  vm_compute. discriminate.
Defined.

Lemma example_count_neutral :
  @count_neutral Example.client (SpecModel.lifecycle Example.no_cancel).
Proof.
  unfold count_neutral. simpl. repeat split.
  - intros svc. unfold SpecModel.get_new_channel, SpecModel.channel_new.
    destruct (__is_service_canceled svc); [reflexivity | ].
    destruct (SpecModel.allocate _); reflexivity.
  - intros c op svec scnt rvec rcnt fds fdcnt state svc.
    unfold SpecModel.send.
    destruct (__is_service_canceled svc); [reflexivity | ].
    destruct (SpecModel.allocate _); reflexivity.
Qed.

(** The second open of the example service and the release of the
    channel it made. *)
Lemma reference_count_balance_witness :
  inode_count
    (snd (@channel_release Example.ops Example.client
            (SpecModel.lifecycle Example.no_cancel)
            (mk_inode
               (Some (set_s_messages Example.service_with_channel
                        [SpecModel.new_message 0 Example.sender0 0
                           (@SERVICEFS_OP_UNIX_OPEN Example.ops) [] [] []])))
            0))
  = Some (s_count Example.open_service).
Proof.
  apply (@reference_count_balance Example.ops Example.client
           (SpecModel.lifecycle Example.no_cancel)
           (mk_inode (Some Example.open_service))
           (mk_inode
              (Some (set_s_messages Example.service_with_channel
                       [SpecModel.new_message 0 Example.sender0 0
                          (@SERVICEFS_OP_UNIX_OPEN Example.ops) [] [] []])))
           (Example.new_file 300)
           (mk_file 300 (priv_channel 0) channel_file_operations 0)
           Example.open_service 0
           example_count_neutral eq_refl
           ltac:(vm_compute; split; discriminate)
           eq_refl eq_refl).
Defined.

(** A request for write access, [O_NONBLOCK] and [O_CLOEXEC]: the access
    bit is dropped. *)
Lemma created_file_flags_witness :
  Z.testbit (Z.land (Z.lor 1 (Z.lor O_NONBLOCK O_CLOEXEC))
               (Z.lor O_NONBLOCK O_CLOEXEC)) 0
  = Z.testbit (Z.lor 1 (Z.lor O_NONBLOCK O_CLOEXEC)) 0
    && ((0 =? 11) || (0 =? 19)).
Proof.
  apply (@created_file_flags
           (Example.env Example.spoofed_sendv Example.spoofed_impulse)
           (SpecModel.lifecycle Example.no_cancel)
           (mk_inode (Some Example.open_service))
           (mk_inode (Some Example.service_with_channel))
           Example.service_file
           (mk_file 512 (priv_channel 0) initial_file_operations
              (Z.land (Z.lor 1 (Z.lor O_NONBLOCK O_CLOEXEC))
                 (Z.lor O_NONBLOCK O_CLOEXEC)))
           (Z.lor 1 (Z.lor O_NONBLOCK O_CLOEXEC)) eq_refl 0).
  lia.
Defined.

Section Unfinished.

Context {lifecycle_api : LifecycleApi}.

(** X19.  When the file of a channel that the service creates for itself
    is released before its setup is completed, [initial_release] only
    takes the reference back: the service is in the state that
    [get_new_channel] left, with the count it had before
    [create_channel_open], and [remove_channel] has not run for the new
    channel. *)
Theorem unfinished_channel_release (ino ino1 : inode) (filp filp1 : file)
    (svc : service) :
  (forall s, s_count (snd (get_new_channel s)) = s_count s) ->
  i_private ino = Some svc ->
  int_range (s_count svc) ->
  create_channel_open ino filp = KReturn (0, ino1, filp1) ->
  exists c svc1,
    get_new_channel (snd (atomic_add_return 1 svc)) = (Some c, svc1)
    /\ private_data filp1 = priv_channel c
    /\ f_op filp1 = initial_file_operations
    /\ initial_release ino1 filp1
       = (0, mk_inode (Some (set_s_count svc1 (s_count svc)))).
Proof.
  intros Nnew Hsvc Hr. unfold create_channel_open. rewrite Hsvc.
  pose proof (Nnew (snd (atomic_add_return 1 svc))) as Hkeep.
  destruct (atomic_add_return 1 svc) as [count svc0] eqn:Hadd.
  destruct (count <? 1); [discriminate | ].
  simpl in Hkeep.
  destruct (get_new_channel svc0) as [[c |] svc1] eqn:Hnew; [ | intros [=]].
  intros [= <- <-]. exists c, svc1.
  split; [exact Hnew | ]. split; [reflexivity | ].
  split; [reflexivity | ].
  unfold initial_release, atomic_add_return. simpl. simpl in Hkeep.
  unfold atomic_add_return in Hadd. injection Hadd as _ <-.
  simpl in Hkeep. rewrite Hkeep, count_round_trip by exact Hr. reflexivity.
Qed.

End Unfinished.

Section CompatUnknown.

Context {compat_numbers : CompatNumbers} {numbers : IoctlNumbers}
        {ops : OpCodes} {env : Environment} {cenv : CompatEnvironment}.
Context {service_api : ServiceApi} {client_api : ClientApi}
        {lifecycle_api : LifecycleApi}.

(** X20.  The 32-bit entry points answer a command that is not one of
    their own commands with [-ENOTTY]; no handler runs and the service is
    left as it was.  A native command number that is no compat command
    number is such a command. *)
Theorem compat_unknown_command_enotty (filp : file) (c : channel_ptr)
    (cmd arg : Z) (svc : service) :
  (~ In cmd service_compat_commands ->
   service_compat_ioctl filp cmd arg svc = (- ENOTTY, svc))
  /\ (~ In cmd channel_compat_commands ->
      channel_compat_ioctl c cmd arg svc = (- ENOTTY, svc)).
Proof.
  split; intros H.
  - unfold service_compat_ioctl.
    destruct (negb (_IOC_TYPE cmd =? servicefs_ioc_type)); [reflexivity | ].
    destruct (_IOC_NR cmd >? SERVICEFS_IOCTL_MAX_NR); [reflexivity | ].
    skip_cases H. reflexivity.
  - unfold channel_compat_ioctl.
    destruct (negb (_IOC_TYPE cmd =? servicefs_ioc_type)); [reflexivity | ].
    destruct (_IOC_NR cmd >? SERVICEFS_IOCTL_MAX_NR); [reflexivity | ].
    skip_cases H. reflexivity.
Qed.

End CompatUnknown.

(** The channel that the example service creates for itself, released
    before its setup is completed: the count is back at 1 and channel 0
    is still linked. *)
Lemma unfinished_channel_release_witness :
  exists c svc1,
    SpecModel.get_new_channel (snd (atomic_add_return 1 Example.open_service))
    = (Some c, svc1)
    /\ private_data (mk_file 512 (priv_channel 0) initial_file_operations 0)
       = priv_channel c
    /\ f_op (mk_file 512 (priv_channel 0) initial_file_operations 0)
       = initial_file_operations
    /\ initial_release (mk_inode (Some Example.service_with_channel))
         (mk_file 512 (priv_channel 0) initial_file_operations 0)
       = (0, mk_inode (Some (set_s_count svc1
                               (s_count Example.open_service)))).
Proof.
  apply (@unfinished_channel_release (SpecModel.lifecycle Example.no_cancel)
           (mk_inode (Some Example.open_service))
           (mk_inode (Some Example.service_with_channel))
           (Example.new_file 512)
           (mk_file 512 (priv_channel 0) initial_file_operations 0)
           Example.open_service).
  - exact (proj1 example_count_neutral).
  - reflexivity.
  - vm_compute. split; discriminate.
  - reflexivity.
Defined.

(** The native read-vector command and the native send-transaction
    command at the 32-bit entry points. *)
Lemma compat_unknown_command_enotty_witness :
  @service_compat_ioctl Example32.numbers Example.numbers
    (Example32.cenv_of
       (Example.env Example.spoofed_sendv Example.spoofed_impulse))
    Example.service_handlers (SpecModel.lifecycle Example.no_cancel)
    Example.service_file (@SERVICEFS_MSG_READV Example.numbers) 0
    Example.open_service
  = (- ENOTTY, Example.open_service)
  /\ @channel_compat_ioctl Example32.numbers Example.numbers Example.ops
       (Example.env Example.spoofed_sendv Example.spoofed_impulse)
       (Example32.cenv_of
          (Example.env Example.spoofed_sendv Example.spoofed_impulse))
       Example.client 0 (@SERVICEFS_MSG_SENDV Example.numbers) 4096
       Example.service_with_channel
     = (- ENOTTY, Example.service_with_channel).
Proof.
  split.
  - apply (proj1
      (@compat_unknown_command_enotty Example32.numbers Example.numbers
         Example.ops
         (Example.env Example.spoofed_sendv Example.spoofed_impulse)
         (Example32.cenv_of
            (Example.env Example.spoofed_sendv Example.spoofed_impulse))
         Example.service_handlers Example.client
         (SpecModel.lifecycle Example.no_cancel)
         Example.service_file 0 (@SERVICEFS_MSG_READV Example.numbers) 0
         Example.open_service)).
    vm_compute. intuition discriminate.
  - apply (proj2
      (@compat_unknown_command_enotty Example32.numbers Example.numbers
         Example.ops
         (Example.env Example.spoofed_sendv Example.spoofed_impulse)
         (Example32.cenv_of
            (Example.env Example.spoofed_sendv Example.spoofed_impulse))
         Example.service_handlers Example.client
         (SpecModel.lifecycle Example.no_cancel)
         Example.service_file 0 (@SERVICEFS_MSG_SENDV Example.numbers) 4096
         Example.service_with_channel)).
    vm_compute. intuition discriminate.
Defined.
